(** * The Jira connector of onyx: a shallow embedding and its properties

    Source: [backend/onyx/connectors/onyx_jira/connector.py].

    The embedding follows the three layers of the connector: the search
    pager ([_paginate_jql_search]), the record transformer
    ([fetch_jira_issues_batch]) and the orchestrator ([JiraConnector]).
    Python generators are modelled by what a consumer observes when it
    drains them: the values yielded, in order, and how the run ended. *)

From Stdlib Require Import List ZArith NArith Bool String Ascii Lia ListSet.
From Stdlib Require Import Permutation.
From Stdlib Require Floats Uint63.
Import ListNotations.

Local Open Scope Z_scope.

(* ================================================================== *)
(** * Part I. The model                                                *)
(* ================================================================== *)

(** ** Python text

    A Python [str] is a sequence of Unicode code points.  String literals
    of the source are written with [lit]. *)

Definition codepoint := N.
Definition str := list codepoint.

Definition lit (s : string) : str :=
  List.map N_of_ascii (list_ascii_of_string s).

Definition str_eqb (a b : str) : bool :=
  if list_eq_dec N.eq_dec a b then true else false.

(** Truth value of a [str]: the empty string is falsy. *)
Definition str_truthy (s : str) : bool :=
  match s with [] => false | _ :: _ => true end.

(** [sep.join(parts)]. *)
Fixpoint join (sep : str) (parts : list str) : str :=
  match parts with
  | [] => []
  | [p] => p
  | p :: rest => p ++ sep ++ join sep rest
  end.

Definition NEWLINE : str := [10%N].
Definition DQUOTE : str := [34%N].

(** [s.encode("utf-8")]: the bytes of each code point, [None] where Python
    raises [UnicodeEncodeError] (a surrogate has no UTF-8 form). *)
Definition encode_codepoint (c : codepoint) : option (list N) :=
  (if c <? 0x80 then Some [c]
   else if c <? 0x800 then
     Some [N.lor 0xC0 (N.shiftr c 6); N.lor 0x80 (N.land c 0x3F)]
   else if (0xD800 <=? c) && (c <=? 0xDFFF) then None
   else if c <? 0x10000 then
     Some [N.lor 0xE0 (N.shiftr c 12);
           N.lor 0x80 (N.land (N.shiftr c 6) 0x3F);
           N.lor 0x80 (N.land c 0x3F)]
   else if c <=? 0x10FFFF then
     Some [N.lor 0xF0 (N.shiftr c 18);
           N.lor 0x80 (N.land (N.shiftr c 12) 0x3F);
           N.lor 0x80 (N.land (N.shiftr c 6) 0x3F);
           N.lor 0x80 (N.land c 0x3F)]
   else None)%N.

Fixpoint encode_utf8 (s : str) : option (list N) :=
  match s with
  | [] => Some []
  | c :: rest =>
      match encode_codepoint c, encode_utf8 rest with
      | Some bs, Some more => Some (bs ++ more)
      | _, _ => None
      end
  end.

(** [s.strip()]: the code points Python's [str.isspace] accepts are removed
    from both ends. *)
Definition isspace (c : codepoint) : bool :=
  ((9 <=? c) && (c <=? 13) || (28 <=? c) && (c <=? 32)
   || (c =? 0x85) || (c =? 0xA0) || (c =? 0x1680)
   || (0x2000 <=? c) && (c <=? 0x200A)
   || (c =? 0x2028) || (c =? 0x2029) || (c =? 0x202F)
   || (c =? 0x205F) || (c =? 0x3000))%N.

Fixpoint lstrip (s : str) : str :=
  match s with
  | c :: rest => if isspace c then lstrip rest else s
  | [] => []
  end.

Definition strip (s : str) : str := rev (lstrip (rev (lstrip s))).

(** [s.rstrip("/")]. *)
Fixpoint lstrip_char (ch : codepoint) (s : str) : str :=
  match s with
  | c :: rest => if N.eqb c ch then lstrip_char ch rest else s
  | [] => []
  end.

Definition rstrip_slash (s : str) : str := rev (lstrip_char 47%N (rev s)).

(** ** Exceptions and results *)

(** What the remote client raises: [getattr(e, "status_code", None)] and
    [str(e)]. *)
Record RemoteFailure := {
  status_code : option Z;
  message : str;
}.

Inductive exn :=
| ConnectorMissingCredentialError (what : str)
| CredentialExpiredError (msg : str)
| InsufficientPermissionsError (msg : str)
| ConnectorValidationError (msg : str)
| RuntimeError (msg : str)
| NotAnIssue                  (* Exception("Found Jira object not of type Issue: ...") *)
| UnicodeEncodeError          (* raised by [str.encode] *)
| TimestampOutOfRange         (* ValueError / OverflowError of [datetime.fromtimestamp] *)
| RemoteError (e : RemoteFailure)   (* raised inside the client *)
| OtherError (msg : str).

Inductive Exc (A : Type) :=
| Ok (a : A)
| Raise (e : exn).
Arguments Ok {A} a.
Arguments Raise {A} e.

(** ** Calendar time: [datetime.fromtimestamp(t, tz=timezone.utc)]

    [datetime.fromtimestamp] first turns its argument into whole seconds
    and microseconds ([timeval], further down) and then the whole seconds
    into a civil date and a time of day ([fromtimestamp], here).  The day
    count is turned into a civil date the way [datetime] does it
    ([_ord2ymd]): cycles of 400, 100, 4 and 1 years from the ordinal of
    0001-01-01, then the month by table. *)

Record datetime := {
  year : Z; month : Z; day : Z; hour : Z; minute : Z; second : Z;
}.

Definition _DI400Y := 146097.
Definition _DI100Y := 36524.
Definition _DI4Y := 1461.
Definition EPOCH_ORDINAL := 719163.   (* date(1970, 1, 1).toordinal() *)
Definition MAX_ORDINAL := 3652059.    (* date(9999, 12, 31).toordinal() *)

Definition _is_leap (y : Z) : bool :=
  (y mod 4 =? 0) && (negb (y mod 100 =? 0) || (y mod 400 =? 0)).

Definition _DAYS_IN_MONTH (m : Z) : Z :=
  match m with
  | 1 => 31 | 2 => 28 | 3 => 31 | 4 => 30 | 5 => 31 | 6 => 30
  | 7 => 31 | 8 => 31 | 9 => 30 | 10 => 31 | 11 => 30 | 12 => 31
  | _ => -1
  end.

Definition _DAYS_BEFORE_MONTH (m : Z) : Z :=
  match m with
  | 1 => 0 | 2 => 31 | 3 => 59 | 4 => 90 | 5 => 120 | 6 => 151
  | 7 => 181 | 8 => 212 | 9 => 243 | 10 => 273 | 11 => 304 | 12 => 334
  | _ => -1
  end.

Definition b2z (b : bool) : Z := if b then 1 else 0.

(** The tail of [_ord2ymd]: month and day of month from the day [n] of the
    year, counted from 0; the month is estimated by a shift and corrected
    with the tables. *)
Definition month_step (leapyear : bool) (n : Z) : Z * Z :=
  let m := Z.shiftr (n + 50) 5 in
  let preceding := _DAYS_BEFORE_MONTH m + b2z ((2 <? m) && leapyear) in
  if n <? preceding then
    let m := m - 1 in
    let preceding :=
      preceding - (_DAYS_IN_MONTH m + b2z ((m =? 2) && leapyear)) in
    (m, n - preceding + 1)
  else (m, n - preceding + 1).

Definition _ord2ymd (ordinal : Z) : Z * Z * Z :=
  let n := ordinal - 1 in
  let n400 := n / _DI400Y in
  let n := n mod _DI400Y in
  let y := n400 * 400 + 1 in
  let n100 := n / _DI100Y in
  let n := n mod _DI100Y in
  let n4 := n / _DI4Y in
  let n := n mod _DI4Y in
  let n1 := n / 365 in
  let n := n mod 365 in
  let y := y + n100 * 100 + n4 * 4 + n1 in
  if (n1 =? 4) || (n100 =? 4) then (y - 1, 12, 31)
  else
    let leapyear := (n1 =? 3) && (negb (n4 =? 24) || (n100 =? 3)) in
    let '(m, d) := month_step leapyear n in
    (y, m, d).

(** The inverse direction, [_ymd2ord]: the ordinal of a civil date.  The
    connector does not call it; it says which day a rendered date denotes. *)
Definition _days_before_year (y : Z) : Z :=
  let y := y - 1 in y * 365 + y / 4 - y / 100 + y / 400.

Definition _ymd2ord (y m d : Z) : Z :=
  _days_before_year y
  + (_DAYS_BEFORE_MONTH m + b2z ((2 <? m) && _is_leap y)) + d.

(** The civil date and the time of day of whole epoch seconds; [None]
    outside the years 1 to 9999, where [datetime] raises. *)
Definition fromtimestamp (t : Z) : option datetime :=
  let days := t / 86400 in
  let secs := t mod 86400 in
  let ordinal := days + EPOCH_ORDINAL in
  if (1 <=? ordinal) && (ordinal <=? MAX_ORDINAL) then
    let '(y, m, d) := _ord2ymd ordinal in
    Some {| year := y; month := m; day := d;
            hour := secs / 3600; minute := secs mod 3600 / 60;
            second := secs mod 60 |}
  else None.

(** *** The argument of [fromtimestamp]

    The bounds of a poll are annotated [SecondsSinceUnixEpoch], a float;
    Python takes an int in its place.  A float is a binary64 number, the
    kernel's [PrimFloat.float]. *)
Inductive SecondsSinceUnixEpoch :=
| IntSeconds (n : Z)
| FloatSeconds (f : PrimFloat.float).

Coercion IntSeconds : Z >-> SecondsSinceUnixEpoch.

Module BinaryFloat.
Import Floats.

(** An integer below [2^63] in magnitude, as a float. *)
Definition float_of_Z (n : Z) : float :=
  if n <? 0 then PrimFloat.opp (PrimFloat.of_uint63 (Uint63.of_Z (- n)))
  else PrimFloat.of_uint63 (Uint63.of_Z n).

(** [pytime_round_half_even]: the integer nearest to a float, the even one
    of the two when it lies half way. *)
Definition round_half_even (x : float) : Z :=
  match Prim2SF x with
  | S754_finite s m e =>
      let magnitude :=
        if 0 <=? e then Z.pos m * 2 ^ e
        else
          let d := 2 ^ (- e) in
          let q := Z.pos m / d in
          let r := Z.pos m mod d in
          if 2 * r <? d then q
          else if d <? 2 * r then q + 1
          else if Z.even q then q else q + 1 in
      if s then - magnitude else magnitude
  | _ => 0
  end.

Definition MICROSECONDS : float := PrimFloat.of_uint63 (Uint63.of_Z 1000000).

(** [pytime_double_to_denominator(d, &sec, &us, 1e6, ROUND_HALF_EVEN)]:
    [modf] splits the float into its integral and fractional parts, the
    fractional part is multiplied by a million, in binary64, and rounded;
    a carry goes to the seconds.  [None] for a NaN ([ValueError]) and for
    an infinity ([OverflowError]). *)
Definition timeval_of_float (d : float) : option (Z * Z) :=
  match Prim2SF d with
  | S754_nan => None
  | S754_infinity _ => None
  | S754_zero _ => Some (0, 0)
  | S754_finite s m e =>
      if 0 <=? e then
        (* an integer: no fractional part *)
        Some ((if s then - (Z.pos m * 2 ^ e) else Z.pos m * 2 ^ e), 0)
      else
        let intmag := Z.pos m / 2 ^ (- e) in
        let intpart := if s then - intmag else intmag in
        let floatpart := PrimFloat.sub d (float_of_Z intpart) in
        let floatpart := PrimFloat.mul floatpart MICROSECONDS in
        let us := round_half_even floatpart in
        if 1000000 <=? us then Some (intpart + 1, us - 1000000)
        else if us <? 0 then Some (intpart - 1, us + 1000000)
        else Some (intpart, us)
  end.

(** Floats for the examples: 59, 60, and the binary64 number nearest to
    59.9999997, less than a third of a microsecond under the minute. *)
Definition fifty_nine : float := 59.
Definition sixty : float := 60.
Definition just_under_sixty : float := 0x1.dfffffd7bc141p+5.

End BinaryFloat.

(** [_PyTime_ObjectToTimeval(timestamp, &timet, &us, ROUND_HALF_EVEN)]:
    whole seconds and microseconds of the argument.  A [time_t] that
    overflows lies outside the years 1 to 9999 and is caught with them in
    [fromtimestamp]. *)
Definition timeval (t : SecondsSinceUnixEpoch) : option (Z * Z) :=
  match t with
  | IntSeconds n => Some (n, 0)
  | FloatSeconds f => BinaryFloat.timeval_of_float f
  end.

(** [datetime.fromtimestamp(t, tz=timezone.utc)], up to the microseconds,
    which no rendering of the connector shows. *)
Definition datetime_fromtimestamp (t : SecondsSinceUnixEpoch) :
    option datetime :=
  match timeval t with
  | Some (timet, _) => fromtimestamp timet
  | None => None
  end.

(** [strftime] fields: zero-padded decimal. *)
Definition digit (d : Z) : codepoint := Z.to_N (48 + d mod 10).

Definition pad2 (n : Z) : str := [digit (n / 10); digit n].

Definition pad4 (n : Z) : str :=
  [digit (n / 1000); digit (n / 100); digit (n / 10); digit n].

(** [%Y]: the C library prints the year as a plain decimal number, so a
    year below 1000 comes without leading zeros (glibc). *)
Definition year_text (y : Z) : str :=
  if y <? 10 then [digit y]
  else if y <? 100 then [digit (y / 10); digit y]
  else if y <? 1000 then [digit (y / 100); digit (y / 10); digit y]
  else pad4 y.

(** [dt.strftime("%Y-%m-%d %H:%M")]. *)
Definition strftime_minute (dt : datetime) : str :=
  year_text (year dt) ++ lit "-" ++ pad2 (month dt) ++ lit "-"
  ++ pad2 (day dt) ++ lit " " ++ pad2 (hour dt) ++ lit ":"
  ++ pad2 (minute dt).

(** ** Records of the remote service *)

(** Raw JSON, as the client library keeps it under [issue.raw] and as it
    hands person objects over. *)
#[warnings="-register-all"]
Inductive json :=
| JNull
| JStr (s : str)
| JNum (n : Z)
| JList (items : list json)
| JObj (members : list (str * json)).

(** A priority, status or resolution: an object with a display [name]. *)
Record Named := { name : str }.

Record IssueFields := {
  summary : str;
  description : option str;
  updated : str;
  labels : list str;
  priority : option Named;
  status : option Named;
  resolution : option Named;
  creator : json;
  assignee : json;
}.

Record Issue := {
  key : str;
  fields : IssueFields;
  raw_description : json;     (* issue.raw["fields"]["description"] *)
  raw_comments : json;
}.

(** One element of a search response; the pager checks
    [isinstance(issue, Issue)]. *)
Inductive Item :=
| AnIssue (issue : Issue)
| NotIssue.

Inductive Remote (A : Type) :=
| Success (a : A)
| Failure (e : RemoteFailure).
Arguments Success {A} a.
Arguments Failure {A} e.

Record Request := {
  req_jql : str;
  req_startAt : Z;
  req_maxResults : Z;
  req_fields : option str;
}.

(** The authenticated client handle: the calls the connector makes on it. *)
Record JIRA := {
  client_info : str;
  search_issues : Request -> Remote (list Item);
  project : str -> Remote unit;
  projects : Remote unit;
}.

(** ** Output documents *)

Record TextSection := { link : str; text : str }.

Record BasicExpertInfo := {
  display_name : option str;
  email : option str;
}.

Definition str_eq_dec : forall a b : str, {a = b} + {a <> b} :=
  list_eq_dec N.eq_dec.

Definition BasicExpertInfo_eq_dec :
  forall a b : BasicExpertInfo, {a = b} + {a <> b}.
Proof.
  decide equality;
    (destruct display_name0 || destruct email0 || idtac);
    decide equality; apply str_eq_dec.
Defined.

Inductive DocumentSource := DocumentSource_JIRA.

Inductive metadata_value :=
| MStr (s : str)
| MList (l : list str).

Record Document := {
  id : str;
  sections : list TextSection;
  source : DocumentSource;
  semantic_identifier : str;
  title : str;
  doc_updated_at : datetime;
  primary_owners : option (list BasicExpertInfo);
  metadata : list (str * metadata_value);
}.

Record SlimDocument := {
  slim_id : str;
  perm_sync_data : option unit;
}.

(** ** Generator runs *)

Inductive outcome :=
| Done                (* the generator returned *)
| Raised (e : exn)    (* an exception left the generator *)
| OutOfFuel.          (* the run was cut before either happened *)

Record run (A : Type) := {
  yielded : list A;
  ending : outcome;
}.
Arguments yielded {A} r.
Arguments ending {A} r.

Record PagerRun := {
  requests : list Request;
  issues : list Issue;
  pager_ending : outcome;
}.

(** ** Collaborators outside the connector module

    Configuration constants of [onyx.configs.app_configs], the process
    environment, and the helpers of [onyx_jira.utils] and
    [cross_connector_utils] the connector calls. *)
Class Collaborators := {
  env_JIRA_API_VERSION : option str;    (* os.environ.get("JIRA_API_VERSION") *)
  INDEX_BATCH_SIZE : Z;
  JIRA_CONNECTOR_LABELS_TO_SKIP : list str;
  JIRA_CONNECTOR_MAX_TICKET_SIZE : Z;
  extract_text_from_adf : json -> str;
  get_comment_strs : Issue -> list str -> list str;
  time_str_to_utc : str -> datetime;
  best_effort_basic_expert_info : json -> Exc (option BasicExpertInfo);
  build_jira_client : list (str * str) -> str -> Exc JIRA;
  (* [list(people)]: the elements of a set in the order of its hash table,
     which changes with the hash seed of the process *)
  list_of_set : set BasicExpertInfo -> list BasicExpertInfo;
  list_of_set_elements : forall s, Permutation s (list_of_set s);
}.

Definition _JIRA_SLIM_PAGE_SIZE := 500.
Definition _JIRA_FULL_PAGE_SIZE := 50.

(** ** The search pager *)

(** [for issue in issues: yield issue if isinstance(issue, Issue) else raise]:
    the issues yielded and whether the whole page went through. *)
Fixpoint yield_page (items : list Item) : list Issue * bool :=
  match items with
  | [] => ([], true)
  | AnIssue i :: rest =>
      let '(ys, ok) := yield_page rest in (i :: ys, ok)
  | NotIssue :: _ => ([], false)
  end.

(** The [while True] loop, one iteration per unit of fuel. *)
Fixpoint paginate_loop (fuel : nat) (jira_client : JIRA) (jql : str)
    (max_results : Z) (fields_ : option str) (start : Z) : PagerRun :=
  match fuel with
  | O => {| requests := []; issues := []; pager_ending := OutOfFuel |}
  | S fuel' =>
      let req := {| req_jql := jql; req_startAt := start;
                    req_maxResults := max_results; req_fields := fields_ |} in
      match search_issues jira_client req with
      | Failure e =>
          {| requests := [req]; issues := [];
             pager_ending := Raised (RemoteError e) |}
      | Success page =>
          let '(ys, ok) := yield_page page in
          if negb ok then
            {| requests := [req]; issues := ys;
               pager_ending := Raised NotAnIssue |}
          else if Z.of_nat (List.length page) <? max_results then
            {| requests := [req]; issues := ys; pager_ending := Done |}
          else
            let r := paginate_loop fuel' jira_client jql max_results fields_
                       (start + max_results) in
            {| requests := req :: requests r;
               issues := ys ++ issues r;
               pager_ending := pager_ending r |}
      end
  end.

Definition _paginate_jql_search (fuel : nat) (jira_client : JIRA) (jql : str)
    (max_results : Z) (fields_ : option str) : PagerRun :=
  paginate_loop fuel jira_client jql max_results fields_ 0.

(** A remote that serves a fixed result set in pages: at most [maxResults]
    records from offset [startAt]. *)
Definition serve_page (results : list Item) (req : Request) : list Item :=
  firstn (Z.to_nat (req_maxResults req))
         (skipn (Z.to_nat (req_startAt req)) results).

Definition result_set_client (base : str) (results : list Item) : JIRA :=
  {| client_info := base;
     search_issues := fun req => Success (serve_page results req);
     project := fun _ => Success tt;
     projects := Success tt |}.

(** A remote that knows one query: a request that carries it is passed on
    to [inner], any other is refused. *)
Definition UNKNOWN_QUERY : RemoteFailure :=
  {| status_code := Some 400; message := lit "unknown query" |}.

Definition answering_only (jql : str) (inner : JIRA) : JIRA :=
  {| client_info := client_info inner;
     search_issues := fun req =>
       if str_eqb (req_jql req) jql then search_issues inner req
       else Failure UNKNOWN_QUERY;
     project := project inner;
     projects := projects inner |}.

Section Connector.
Context `{Collaborators}.

(** ** The record transformer *)

(** [JIRA_API_VERSION = os.environ.get("JIRA_API_VERSION") or "2"]. *)
Definition JIRA_API_VERSION : str :=
  match env_JIRA_API_VERSION with
  | Some v => if str_truthy v then v else lit "2"
  | None => lit "2"
  end.

(** [f"{description}"]: [None] is formatted as the text [None]. *)
Definition format_optional (d : option str) : str :=
  match d with
  | Some s => s
  | None => lit "None"
  end.

(** [any(label in issue.fields.labels for label in labels_to_skip)]. *)
Definition has_label_to_skip (issue : Issue) (labels_to_skip : list str) : bool :=
  existsb (fun label => existsb (str_eqb label) (labels (fields issue)))
          labels_to_skip.

(** The two guards of the label filter: [if labels_to_skip:] and the
    [any(...)] under it. *)
Definition label_filter_skips (issue : Issue)
    (labels_to_skip : option (list str)) : bool :=
  match labels_to_skip with
  | None | Some [] => false
  | Some skip => has_label_to_skip issue skip
  end.

Definition issue_description (issue : Issue) : str :=
  if str_eqb JIRA_API_VERSION (lit "2")
  then format_optional (description (fields issue))
  else extract_text_from_adf (raw_description issue).

Definition ticket_content_of (issue : Issue)
    (comment_email_blacklist : list str) : str :=
  let comments := get_comment_strs issue comment_email_blacklist in
  (issue_description issue ++ NEWLINE)
  ++ join NEWLINE
       (List.map (fun comment => lit "Comment: " ++ comment)
                 (List.filter str_truthy comments)).

(** Modelled from the spec: [best_effort_get_field_from_issue] of
    [onyx_jira.utils] is not in the connector module.  It hands over the
    field of the record, or nothing when the record has none ([None] for an
    optional object, [JNull] for a person, the empty list for labels), and
    does not raise: every field is individually optional.  The field is
    named by its projection. *)
Definition best_effort_get_field_from_issue {A : Type} (issue : Issue)
    (field : IssueFields -> A) : A :=
  field (fields issue).

(** One [try: ... except Exception: pass] block of the people extraction:
    the field is fetched, resolved, and added to the set when it resolved
    to a person; an exception leaves the set as it was. *)
Definition add_person (person : json) (people : set BasicExpertInfo) :
    set BasicExpertInfo :=
  match best_effort_basic_expert_info person with
  | Ok (Some basic_expert_info) =>
      set_add BasicExpertInfo_eq_dec basic_expert_info people
  | Ok None => people
  | Raise _ => people
  end.

Definition people_of (issue : Issue) : set BasicExpertInfo :=
  let people := empty_set BasicExpertInfo in
  let people :=
    add_person (best_effort_get_field_from_issue issue creator) people in
  let people :=
    add_person (best_effort_get_field_from_issue issue assignee) people in
  people.

(** [l or None], for [list(people) or None]. *)
Definition list_or_None {A : Type} (l : list A) : option (list A) :=
  match l with
  | [] => None
  | _ :: _ => Some l
  end.

Definition named_entry (k : string) (v : option Named) :
    list (str * metadata_value) :=
  match v with
  | Some n => [(lit k, MStr (name n))]
  | None => []
  end.

(** The metadata dictionary, in insertion order. *)
Definition metadata_of (issue : Issue) : list (str * metadata_value) :=
  named_entry "priority" (best_effort_get_field_from_issue issue priority)
  ++ named_entry "status" (best_effort_get_field_from_issue issue status)
  ++ named_entry "resolution"
       (best_effort_get_field_from_issue issue resolution)
  ++ match best_effort_get_field_from_issue issue labels with
     | [] => []
     | ls => [(lit "label", MList ls)]
     end.

Definition build_document (jira_client : JIRA) (issue : Issue)
    (ticket_content : str) : Document :=
  let page_url := client_info jira_client ++ lit "/browse/" ++ key issue in
  {| id := page_url;
     sections := [ {| link := page_url; text := ticket_content |} ];
     source := DocumentSource_JIRA;
     semantic_identifier := key issue ++ lit ": " ++ summary (fields issue);
     title := key issue ++ lit " " ++ summary (fields issue);
     doc_updated_at := time_str_to_utc (updated (fields issue));
     primary_owners := list_or_None (list_of_set (people_of issue));
     metadata := metadata_of issue |}.

(** The body of the [for issue in ...] loop: the record is skipped
    ([continue]), a document is yielded, or an exception escapes. *)
Inductive step :=
| Skip
| Emit (doc : Document)
| Fail (e : exn).

Definition process_issue (jira_client : JIRA)
    (comment_email_blacklist : list str)
    (labels_to_skip : option (list str)) (issue : Issue) : step :=
  if label_filter_skips issue labels_to_skip then Skip
  else
    let ticket_content := ticket_content_of issue comment_email_blacklist in
    match encode_utf8 ticket_content with
    | None => Fail UnicodeEncodeError
    | Some bytes =>
        if Z.of_nat (List.length bytes) >? JIRA_CONNECTOR_MAX_TICKET_SIZE
        then Skip
        else Emit (build_document jira_client issue ticket_content)
    end.

(** The loop over the records the pager yielded, up to the first exception. *)
Fixpoint transform (jira_client : JIRA) (comment_email_blacklist : list str)
    (labels_to_skip : option (list str)) (records : list Issue) :
    list Document * option exn :=
  match records with
  | [] => ([], None)
  | issue :: rest =>
      match process_issue jira_client comment_email_blacklist
              labels_to_skip issue with
      | Skip =>
          transform jira_client comment_email_blacklist labels_to_skip rest
      | Emit doc =>
          let '(docs, e) :=
            transform jira_client comment_email_blacklist labels_to_skip rest in
          (doc :: docs, e)
      | Fail e => ([], Some e)
      end
  end.

(** The transformer pulls from the pager; an exception of its own comes
    before anything the pager does after the record that caused it. *)
Definition fetch_jira_issues_batch (fuel : nat) (jira_client : JIRA)
    (jql : str) (batch_size : Z) (comment_email_blacklist : list str)
    (labels_to_skip : option (list str)) : run Document :=
  let pager := _paginate_jql_search fuel jira_client jql batch_size None in
  let '(docs, e) :=
    transform jira_client comment_email_blacklist labels_to_skip
              (issues pager) in
  {| yielded := docs;
     ending := match e with
               | Some e => Raised e
               | None => pager_ending pager
               end |}.

(** ** The connector *)

Record JiraConnector := {
  batch_size : Z;
  jira_base : str;
  jira_project : option str;
  _comment_email_blacklist : list str;
  labels_to_skip : list str;
  _jira_client : option JIRA;
}.

(** [JiraConnector.__init__]. *)
Definition new_connector (jira_base_url : str) (project_key : option str)
    (comment_email_blacklist : option (list str)) (batch_size : option Z)
    (labels_to_skip : option (list str)) : JiraConnector :=
  {| batch_size := match batch_size with
                   | Some b => b
                   | None => INDEX_BATCH_SIZE
                   end;
     jira_base := rstrip_slash jira_base_url;
     jira_project := project_key;
     _comment_email_blacklist :=
       match comment_email_blacklist with
       | Some (_ :: _ as l) => l
       | _ => []
       end;
     labels_to_skip :=
       nodup str_eq_dec
         match labels_to_skip with
         | Some l => l
         | None => JIRA_CONNECTOR_LABELS_TO_SKIP
         end;
     _jira_client := None |}.

Definition comment_email_blacklist (self : JiraConnector) : list str :=
  List.map strip (_comment_email_blacklist self).

Definition jira_client (self : JiraConnector) : Exc JIRA :=
  match _jira_client self with
  | None => Raise (ConnectorMissingCredentialError (lit "Jira"))
  | Some c => Ok c
  end.

(** [if self.jira_project]: a project is configured when the key is
    neither [None] nor empty. *)
Definition configured_project (self : JiraConnector) : option str :=
  match jira_project self with
  | Some p => if str_truthy p then Some p else None
  | None => None
  end.

Definition quoted_jira_project (self : JiraConnector) : str :=
  match configured_project self with
  | Some p => DQUOTE ++ p ++ DQUOTE
  | None => []
  end.

Definition _get_jql_query (self : JiraConnector) : str :=
  match configured_project self with
  | Some _ => lit "project = " ++ quoted_jira_project self
  | None => []
  end.


(** The accumulation loop shared by the three retrieval modes:
    [batch.append(doc); if len(batch) >= size: yield batch; batch = []].
    It returns the batches yielded and the batch left accumulating. *)
Fixpoint batch_loop {A : Type} (size : Z) (docs : list A)
    (document_batch : list A) : list (list A) * list A :=
  match docs with
  | [] => ([], document_batch)
  | doc :: rest =>
      let document_batch := document_batch ++ [doc] in
      if Z.of_nat (List.length document_batch) >=? size then
        let '(batches, last) := batch_loop size rest [] in
        (document_batch :: batches, last)
      else batch_loop size rest document_batch
  end.

(** The final [yield document_batch] is reached only when the inner
    generator returned. *)
Definition emit_batches {A : Type} (size : Z) (inner : run A) :
    run (list A) :=
  let '(batches, last) := batch_loop size (yielded inner) [] in
  match ending inner with
  | Done => {| yielded := batches ++ [last]; ending := Done |}
  | other => {| yielded := batches; ending := other |}
  end.

Definition raising {A : Type} (e : exn) : run A :=
  {| yielded := []; ending := Raised e |}.

Definition load_from_state (fuel : nat) (self : JiraConnector) :
    run (list Document) * JiraConnector :=
  let jql := _get_jql_query self in
  (match jira_client self with
   | Raise e => raising e
   | Ok client =>
       emit_batches (batch_size self)
         (fetch_jira_issues_batch fuel client jql _JIRA_FULL_PAGE_SIZE
            (comment_email_blacklist self) (Some (labels_to_skip self)))
   end, self).

(** The query of [poll_source]; [datetime.fromtimestamp] raises outside
    the years 1 to 9999. *)
Definition poll_jql (self : JiraConnector)
    (start end_ : SecondsSinceUnixEpoch) : Exc str :=
  match datetime_fromtimestamp start with
  | None => Raise TimestampOutOfRange
  | Some start_dt =>
      let start_date_str := strftime_minute start_dt in
      match datetime_fromtimestamp end_ with
      | None => Raise TimestampOutOfRange
      | Some end_dt =>
          let end_date_str := strftime_minute end_dt in
          let base_jql := _get_jql_query self in
          Ok ((if str_truthy base_jql then base_jql ++ lit " AND " else [])
              ++ lit "updated >= '" ++ start_date_str
              ++ lit "' AND updated <= '" ++ end_date_str ++ lit "'")
      end
  end.

Definition poll_source (fuel : nat) (start end_ : SecondsSinceUnixEpoch)
    (self : JiraConnector) : run (list Document) * JiraConnector :=
  (match poll_jql self start end_ with
   | Raise e => raising e
   | Ok jql =>
       match jira_client self with
       | Raise e => raising e
       | Ok client =>
           emit_batches (batch_size self)
             (fetch_jira_issues_batch fuel client jql _JIRA_FULL_PAGE_SIZE
                (comment_email_blacklist self) (Some (labels_to_skip self)))
       end
   end, self).

(** Modelled from the spec: [build_jira_url] of [onyx_jira.utils] is not in
    the connector module, nor is [best_effort_get_field_from_issue], which
    is asked for the [key] here; a slim document carries the same deep link
    as a full one, the client's base URL followed by [/browse/] and the
    record key. *)
Definition build_jira_url (jira_client : JIRA) (issue_key : str) : str :=
  client_info jira_client ++ lit "/browse/" ++ issue_key.

Definition slim_document (jira_client : JIRA) (issue : Issue) : SlimDocument :=
  let issue_key := key issue in
  {| slim_id := build_jira_url jira_client issue_key;
     perm_sync_data := None |}.

Record SlimRun := {
  slim_requests : list Request;
  slim_batches : run (list SlimDocument);
}.

Definition retrieve_all_slim_documents (fuel : nat)
    (start end_ : option SecondsSinceUnixEpoch)
    (self : JiraConnector) : SlimRun * JiraConnector :=
  let jql := _get_jql_query self in
  (match jira_client self with
   | Raise e => {| slim_requests := []; slim_batches := raising e |}
   | Ok client =>
       let pager :=
         _paginate_jql_search fuel client jql _JIRA_SLIM_PAGE_SIZE
           (Some (lit "key")) in
       {| slim_requests := requests pager;
          slim_batches :=
            emit_batches _JIRA_SLIM_PAGE_SIZE
              {| yielded := List.map (slim_document client) (issues pager);
                 ending := pager_ending pager |} |}
   end, self).

(** The [except Exception as e] handlers of [validate_connector_settings]. *)
Definition classify_project_failure (jira_project : str)
    (e : RemoteFailure) : exn :=
  match status_code e with
  | Some 401 =>
      CredentialExpiredError
        (lit "Jira credential appears to be expired or invalid (HTTP 401).")
  | Some 403 =>
      InsufficientPermissionsError
        (lit "Your Jira token does not have sufficient permissions for this project (HTTP 403).")
  | Some 404 =>
      ConnectorValidationError
        (lit "Jira project not found with key: " ++ jira_project)
  | Some 429 =>
      ConnectorValidationError
        (lit "Validation failed due to Jira rate-limits being exceeded. Please try again later.")
  | _ =>
      RuntimeError
        (lit "Unexpected Jira error during validation: " ++ message e)
  end.

Definition classify_listing_failure (e : RemoteFailure) : exn :=
  match status_code e with
  | Some 401 =>
      CredentialExpiredError
        (lit "Jira credential appears to be expired or invalid (HTTP 401).")
  | Some 403 =>
      InsufficientPermissionsError
        (lit "Your Jira token does not have sufficient permissions to list projects (HTTP 403).")
  | Some 429 =>
      ConnectorValidationError
        (lit "Validation failed due to Jira rate-limits being exceeded. Please try again later.")
  | _ =>
      RuntimeError
        (lit "Unexpected Jira error during validation: " ++ message e)
  end.

Definition validate_connector_settings (self : JiraConnector) :
    Exc unit * JiraConnector :=
  (match _jira_client self with
   | None => Raise (ConnectorMissingCredentialError (lit "Jira"))
   | Some client =>
       match configured_project self with
       | Some jira_project =>
           match project client jira_project with
           | Success _ => Ok tt
           | Failure e => Raise (classify_project_failure jira_project e)
           end
       | None =>
           match projects client with
           | Success _ => Ok tt
           | Failure e => Raise (classify_listing_failure e)
           end
       end
   end, self).

End Connector.

(** ** What the spec asks of the results

    These predicates follow the words of the specification; the theorems
    of Part II relate them to the functions above. *)

(** [s] is the text [YYYY-MM-DD HH:MM] of the UTC minute that contains the
    instant [t]: a civil date and a time of day, on four (fewer for a year
    below 1000), two, two, two and two digits, whose first second is at
    most [t] and less than a minute before it. *)
Definition days_in_month (y m : Z) : Z :=
  _DAYS_IN_MONTH m + b2z ((m =? 2) && _is_leap y).

Definition minute_rendering_of (t : Z) (s : str) : Prop :=
  exists y m d hh mm,
    (1 <= y <= 9999 /\ 1 <= m <= 12 /\ 1 <= d <= days_in_month y m
     /\ 0 <= hh < 24 /\ 0 <= mm < 60)
    /\ s = year_text y ++ lit "-" ++ pad2 m ++ lit "-" ++ pad2 d
           ++ lit " " ++ pad2 hh ++ lit ":" ++ pad2 mm
    /\ let first_second :=
         (_ymd2ord y m d - EPOCH_ORDINAL) * 86400 + hh * 3600 + mm * 60 in
       first_second <= t < first_second + 60.

(** The whole seconds of a time bound, once [fromtimestamp] has rounded it
    to the microsecond. *)
Definition whole_seconds (t : SecondsSinceUnixEpoch) : option Z :=
  option_map fst (timeval t).

(** The instants [datetime] can hold (years 1 to 9999). *)
Definition representable (t : Z) : Prop :=
  -62135596800 <= t < 253402300800.

(** The scope filter as the left operand of a conjunction. *)
Definition scope_prefix (project_key : option str) : str :=
  match project_key with
  | Some p => lit "project = " ++ DQUOTE ++ p ++ DQUOTE ++ lit " AND "
  | None => []
  end.

(** [batches] cuts [docs] into [M / B] batches of [B] documents followed by
    one batch of [M mod B]. *)
Definition batch_shape {A : Type} (B : Z) (docs : list A)
    (batches : list (list A)) : Prop :=
  let M := Z.of_nat (List.length docs) in
  exists full last,
    batches = full ++ [last]
    /\ Z.of_nat (List.length full) = M / B
    /\ Forall (fun b => Z.of_nat (List.length b) = B) full
    /\ Z.of_nat (List.length last) = M mod B
    /\ List.concat batches = docs.

(** The requests of a pager that walks [count] pages of [P] records from
    offset 0: the [k]-th asks for at most [P] records from offset [k * P]. *)
Definition request_at (jql : str) (P : Z) (fields_ : option str)
    (off : Z) (k : nat) : Request :=
  {| req_jql := jql; req_startAt := off + Z.of_nat k * P;
     req_maxResults := P; req_fields := fields_ |}.

Definition page_requests (jql : str) (P : Z) (fields_ : option str)
    (count : nat) : list Request :=
  List.map (request_at jql P fields_ 0) (seq 0 count).

Definition contains (needle hay : str) : Prop :=
  exists before after, hay = before ++ needle ++ after.

Definition starts_with (prefix s : str) : Prop :=
  exists rest, s = prefix ++ rest.

Definition ends_with (suffix s : str) : Prop :=
  exists front, s = front ++ suffix.


(** What the month step has to deliver on the day [r] of a year, as a
    test: a month, a day of that month, and the count of days before it. *)
Definition month_step_ok (l : bool) (r : Z) : bool :=
  let '(m, d) := month_step l r in
  (1 <=? m) && (m <=? 12) && (1 <=? d)
  && (d <=? _DAYS_IN_MONTH m + b2z ((m =? 2) && l))
  && (_DAYS_BEFORE_MONTH m + b2z ((2 <? m) && l) + d =? r + 1).

(** ** A concrete remote and concrete collaborators

    Used to run the model on explicit records. *)
Module Fixture.

Fixpoint lookup (k : str) (members : list (str * json)) : option json :=
  match members with
  | [] => None
  | (k', v) :: rest => if str_eqb k k' then Some v else lookup k rest
  end.

Definition text_member (k : string) (j : json) : option str :=
  match j with
  | JObj members =>
      match lookup (lit k) members with
      | Some (JStr s) => Some s
      | _ => None
      end
  | _ => None
  end.

(** Modelled from the spec: [best_effort_basic_expert_info] of
    [onyx_jira.utils] is not in the connector module.  A person object
    resolves to its display name and email address; resolution fails on a
    missing field ([JNull]) and on a malformed person object (anything that
    is not an object), and yields nothing when the object names nobody. *)
Definition resolve_person (person : json) : Exc (option BasicExpertInfo) :=
  match person with
  | JObj _ =>
      match text_member "displayName" person,
            text_member "emailAddress" person with
      | None, None => Ok None
      | dn, em => Ok (Some {| display_name := dn; email := em |})
      end
  | _ => Raise (OtherError (lit "AttributeError"))
  end.

Definition ascii_lower (c : codepoint) : codepoint :=
  (if (65 <=? c) && (c <=? 90) then c + 32 else c)%N.

(** Modelled from the spec: [get_comment_strs] of [onyx_jira.utils] is not
    in the connector module.  Comments whose author's address is in the
    blacklist (case-insensitive, whitespace-trimmed match) are left out; a
    comment with a malformed or missing body yields no comment. *)
Definition comment_strs (issue : Issue) (blacklist : list str) : list str :=
  match raw_comments issue with
  | JList comments =>
      flat_map
        (fun c =>
           let blocked :=
             match text_member "author" c with
             | Some a =>
                 existsb
                   (fun b => str_eqb (List.map ascii_lower (strip b))
                                     (List.map ascii_lower (strip a)))
                   blacklist
             | None => false
             end in
           if blocked then []
           else match text_member "body" c with
                | Some body => [body]
                | None => []
                end)
        comments
  | _ => []
  end.

(** The records of the fixture are read in the plain-text mode and carry
    one time stamp; these two stand for [extract_text_from_adf] and
    [time_str_to_utc] on them. *)
Definition adf_text (adf : json) : str :=
  match adf with
  | JStr s => s
  | _ => []
  end.

Definition EPOCH : datetime :=
  {| year := 1970; month := 1; day := 1; hour := 0; minute := 0; second := 0 |}.

Definition person (dn em : string) : json :=
  JObj [(lit "displayName", JStr (lit dn)); (lit "emailAddress", JStr (lit em))].

Definition comment (author body : string) : json :=
  JObj [(lit "author", JStr (lit author)); (lit "body", JStr (lit body))].

Definition issue_with (k : string) (desc : option str) (ls : list str)
    (c a : json) (comments : list json) : Issue :=
  {| key := lit k;
     fields := {| summary := lit "Summary"; description := desc;
                  updated := lit "2023-11-14T22:13:20.000+0000";
                  labels := ls; priority := Some {| name := lit "High" |};
                  status := None; resolution := None;
                  creator := c; assignee := a |};
     raw_description := JNull;
     raw_comments := JList comments |}.

Definition ada := person "Ada" "ada@example.com".

(** Content [lit "0123456789"] and a newline, one comment of 8 characters
    with its marker: 11 + 9 + 8 = 28 bytes; without comments 11 bytes. *)
Definition plain (k : string) : Issue :=
  issue_with k (Some (lit "0123456789")) [] ada JNull [].

(** Exactly at the limit of 20 bytes: 19 characters and the newline. *)
Definition at_limit : Issue :=
  issue_with "OPS-20" (Some (lit "0123456789012345678")) [] ada ada [].

(** One byte over: the last character takes two bytes in UTF-8. *)
Definition over_limit : Issue :=
  issue_with "OPS-21" (Some (lit "012345678901234567" ++ [233%N])) [] ada ada [].

Definition labelled : Issue :=
  issue_with "OPS-30" (Some (lit "secret plans")) [lit "Secret"] ada ada [].

Definition undescribed : Issue :=
  issue_with "OPS-40" None [] ada (JStr (lit "nobody")) [].

Definition orphan : Issue :=
  issue_with "OPS-41" (Some (lit "no owners")) [] JNull (JStr (lit "x")) [].

(** Four comments: one kept, one by a blacklisted author, one with an
    empty body, one kept. *)
Definition commented : Issue :=
  issue_with "OPS-50" (Some (lit "0123456789")) [] ada ada
    [comment "a@x.org" "first"; comment "B@x.org" "second";
     comment "c@x.org" ""; comment "d@x.org" "third"].

Definition base_url : str := lit "https://jira.example.com".

Definition records : list Issue :=
  [plain "OPS-1"; plain "OPS-2"; over_limit; plain "OPS-3"; at_limit].

Definition client : JIRA := result_set_client base_url (List.map AnIssue records).

(** A client is built from any credentials that are not empty. *)
Definition build_client (credentials : list (str * str)) (base : str) :
    Exc JIRA :=
  match credentials with
  | [] => Raise (OtherError (lit "no credentials"))
  | _ :: _ => Ok (result_set_client base (List.map AnIssue records))
  end.

#[local] Instance collaborators : Collaborators := {
  env_JIRA_API_VERSION := None;
  INDEX_BATCH_SIZE := 2;
  JIRA_CONNECTOR_LABELS_TO_SKIP := [];
  JIRA_CONNECTOR_MAX_TICKET_SIZE := 20;
  extract_text_from_adf := adf_text;
  get_comment_strs := comment_strs;
  time_str_to_utc := fun _ => EPOCH;
  best_effort_basic_expert_info := resolve_person;
  build_jira_client := build_client;
  list_of_set := fun s => s;
  list_of_set_elements := fun s => Permutation_refl s;
}.

Definition connector (project_key : option str) (c : option JIRA) :
    JiraConnector :=
  {| batch_size := 2; jira_base := base_url; jira_project := project_key;
     _comment_email_blacklist := []; labels_to_skip := [lit "secret"];
     _jira_client := c |}.

(** The predicate of the time-window example of the specification. *)
Definition ops_window_query : str :=
  lit "project = " ++ DQUOTE ++ lit "OPS" ++ DQUOTE
  ++ lit " AND updated >= '2023-11-14 22:13'"
  ++ lit " AND updated <= '2023-11-14 23:13'".

Definition failing_client (code : Z) : JIRA :=
  let e := {| status_code := Some code; message := lit "remote said no" |} in
  {| client_info := base_url;
     search_issues := fun _ => Failure e;
     project := fun _ => Failure e;
     projects := Failure e |}.

End Fixture.

(* ================================================================== *)
(** * Part II. Properties                                              *)
(* ================================================================== *)

(** ** Calendar arithmetic *)

Lemma is_leap_cycles (q a b c : Z) :
  0 <= a <= 3 -> 0 <= b <= 24 -> 0 <= c <= 3 ->
  _is_leap (400 * q + 100 * a + 4 * b + c + 1)
  = (c =? 3) && (negb (b =? 24) || (a =? 3)).
Proof.
  intros Ha Hb Hc. unfold _is_leap.
  set (y := 400 * q + 100 * a + 4 * b + c + 1).
  assert (E4 : y mod 4 = (c + 1) mod 4).
  { unfold y. replace (400 * q + 100 * a + 4 * b + c + 1)
      with ((c + 1) + (100 * q + 25 * a + b) * 4) by lia.
    apply Z.mod_add. lia. }
  assert (E100 : y mod 100 = (4 * b + c + 1) mod 100).
  { unfold y. replace (400 * q + 100 * a + 4 * b + c + 1)
      with ((4 * b + c + 1) + (4 * q + a) * 100) by lia.
    apply Z.mod_add. lia. }
  assert (E400 : y mod 400 = (100 * a + 4 * b + c + 1) mod 400).
  { unfold y. replace (400 * q + 100 * a + 4 * b + c + 1)
      with ((100 * a + 4 * b + c + 1) + q * 400) by lia.
    apply Z.mod_add. lia. }
  rewrite E4, E100, E400.
  destruct (Z.eqb_spec c 3) as [-> | Hc3].
  - replace ((3 + 1) mod 4) with 0 by reflexivity.
    rewrite Z.eqb_refl. cbn [andb].
    destruct (Z.eqb_spec b 24) as [-> | Hb24].
    + replace ((4 * 24 + 3 + 1) mod 100) with 0 by reflexivity.
      rewrite Z.eqb_refl. cbn [negb orb].
      destruct (Z.eqb_spec a 3) as [-> | Ha3]; [reflexivity|].
      apply Z.eqb_neq. rewrite Z.mod_small; lia.
    + rewrite (Z.mod_small (4 * b + 3 + 1)) by lia.
      destruct (Z.eqb_spec (4 * b + 3 + 1) 0); [lia | reflexivity].
  - rewrite (Z.mod_small (c + 1)) by lia.
    destruct (Z.eqb_spec (c + 1) 0); [lia | reflexivity].
Qed.

Lemma days_before_year_cycles (q a b c : Z) :
  0 <= a <= 3 -> 0 <= b <= 24 -> 0 <= c <= 3 ->
  _days_before_year (400 * q + 100 * a + 4 * b + c + 1)
  = 146097 * q + 36524 * a + 1461 * b + 365 * c.
Proof.
  intros Ha Hb Hc. unfold _days_before_year.
  replace (400 * q + 100 * a + 4 * b + c + 1 - 1)
    with (400 * q + 100 * a + 4 * b + c) by lia.
  assert (E4 : (400 * q + 100 * a + 4 * b + c) / 4 = 100 * q + 25 * a + b).
  { symmetry. apply Z.div_unique with (r := c); lia. }
  assert (E100 : (400 * q + 100 * a + 4 * b + c) / 100 = 4 * q + a).
  { symmetry. apply Z.div_unique with (r := 4 * b + c); lia. }
  assert (E400 : (400 * q + 100 * a + 4 * b + c) / 400 = q).
  { symmetry. apply Z.div_unique with (r := 100 * a + 4 * b + c); lia. }
  rewrite E4, E100, E400. lia.
Qed.

(** The month step passes its test on every day of a common and of a leap
    year. *)
Lemma month_step_checked (l : bool) :
  forallb (month_step_ok l)
          (List.map Z.of_nat (seq 0 (365 + (if l then 1 else 0)))) = true.
Proof. destruct l; vm_compute; reflexivity. Qed.

Lemma month_step_spec (l : bool) (r : Z) :
  0 <= r < 365 + b2z l ->
  let '(m, d) := month_step l r in
  1 <= m <= 12
  /\ 1 <= d <= _DAYS_IN_MONTH m + b2z ((m =? 2) && l)
  /\ _DAYS_BEFORE_MONTH m + b2z ((2 <? m) && l) + d = r + 1.
Proof.
  intros Hr.
  assert (Hin : In r (List.map Z.of_nat (seq 0 (365 + (if l then 1 else 0))))).
  { rewrite <- (Z2Nat.id r) by lia. apply in_map, in_seq.
    destruct l; cbn [b2z] in Hr; lia. }
  pose proof (proj1 (forallb_forall _ _) (month_step_checked l) r Hin) as Hok.
  unfold month_step_ok in Hok. destruct (month_step l r) as [m d].
  repeat (apply andb_prop in Hok; destruct Hok as [Hok ?]).
  lia.
Qed.

(** The quotients and remainders [_ord2ymd] takes of [n - 1], with their
    division equations and bounds. *)
Ltac cycles n q a b c r :=
  unfold _ord2ymd, _DI400Y, _DI100Y, _DI4Y; cbv zeta;
  let r400 := fresh "r400" in
  let r100 := fresh "r100" in
  let r4 := fresh "r4" in
  pose proof (Z.div_mod (n - 1) 146097 ltac:(lia));
  pose proof (Z.mod_pos_bound (n - 1) 146097 ltac:(lia));
  generalize dependent ((n - 1) / 146097); intros q;
  generalize dependent ((n - 1) mod 146097); intros r400 ? ?;
  pose proof (Z.div_mod r400 36524 ltac:(lia));
  pose proof (Z.mod_pos_bound r400 36524 ltac:(lia));
  generalize dependent (r400 / 36524); intros a;
  generalize dependent (r400 mod 36524); intros r100 ? ?;
  pose proof (Z.div_mod r100 1461 ltac:(lia));
  pose proof (Z.mod_pos_bound r100 1461 ltac:(lia));
  generalize dependent (r100 / 1461); intros b;
  generalize dependent (r100 mod 1461); intros r4 ? ?;
  pose proof (Z.div_mod r4 365 ltac:(lia));
  pose proof (Z.mod_pos_bound r4 365 ltac:(lia));
  generalize dependent (r4 / 365); intros c;
  generalize dependent (r4 mod 365); intros r ? ?.

(** [_ord2ymd] yields a date of the calendar, and [_ymd2ord] takes it back
    to the ordinal. *)
Lemma ord2ymd_spec (n : Z) :
  let '(y, m, d) := _ord2ymd n in
  1 <= m <= 12 /\ 1 <= d <= days_in_month y m /\ _ymd2ord y m d = n.
Proof.
  cycles n q a b c r.
  assert (Ha : 0 <= a <= 4) by lia.
  assert (Hb : 0 <= b <= 24) by lia.
  assert (Hc : 0 <= c <= 4) by lia.
  destruct (Z.eqb_spec c 4) as [-> | Hc4]; cbn [orb].
  - (* the last day of a leap year that closes a cycle of four *)
    replace (q * 400 + 1 + a * 100 + b * 4 + 4 - 1)
      with (400 * q + 100 * a + 4 * b + 3 + 1) by lia.
    unfold days_in_month, _ymd2ord.
    rewrite is_leap_cycles, days_before_year_cycles by lia.
    replace (b =? 24) with false by (symmetry; apply Z.eqb_neq; lia).
    change (3 =? 3) with true. change (2 <? 12) with true.
    change (12 =? 2) with false.
    cbn [andb orb negb b2z _DAYS_IN_MONTH _DAYS_BEFORE_MONTH]. lia.
  - destruct (Z.eqb_spec a 4) as [-> | Ha4].
    + (* the last day of a cycle of 400 years *)
      assert (b = 0 /\ c = 0 /\ r = 0) as (-> & -> & ->) by lia.
      replace (q * 400 + 1 + 4 * 100 + 0 * 4 + 0 - 1)
        with (400 * q + 100 * 3 + 4 * 24 + 3 + 1) by lia.
      unfold days_in_month, _ymd2ord.
      rewrite is_leap_cycles, days_before_year_cycles by lia.
      change (3 =? 3) with true. change (2 <? 12) with true.
      change (12 =? 2) with false. change (24 =? 24) with true.
      cbn [andb orb negb b2z _DAYS_IN_MONTH _DAYS_BEFORE_MONTH]. lia.
    + set (leapyear := (c =? 3) && (negb (b =? 24) || (a =? 3))).
      assert (Hr : 0 <= r < 365 + b2z leapyear)
        by (destruct leapyear; cbn [b2z]; lia).
      pose proof (month_step_spec leapyear r Hr) as Hm.
      destruct (month_step leapyear r) as [m d].
      destruct Hm as (Hm & Hd & Hsum).
      replace (q * 400 + 1 + a * 100 + b * 4 + c)
        with (400 * q + 100 * a + 4 * b + c + 1) by lia.
      unfold days_in_month, _ymd2ord.
      rewrite is_leap_cycles, days_before_year_cycles by lia.
      fold leapyear. lia.
Qed.

Lemma ord2ymd_year (n : Z) :
  1 <= n <= 3652059 ->
  let '(y, _, _) := _ord2ymd n in 1 <= y <= 9999.
Proof.
  intros Hn. cycles n q a b c r.
  destruct ((c =? 4) || (a =? 4)) eqn:Elast.
  - apply orb_true_iff in Elast. rewrite !Z.eqb_eq in Elast. lia.
  - apply orb_false_iff in Elast. rewrite !Z.eqb_neq in Elast.
    destruct (month_step _ r). lia.
Qed.

Lemma fromtimestamp_representable (t : Z) :
  representable t <-> fromtimestamp t <> None.
Proof.
  unfold representable, fromtimestamp, EPOCH_ORDINAL, MAX_ORDINAL. cbv zeta.
  pose proof (Z.div_mod t 86400 ltac:(lia)).
  pose proof (Z.mod_pos_bound t 86400 ltac:(lia)).
  destruct (Z.leb_spec 1 (t / 86400 + 719163));
    destruct (Z.leb_spec (t / 86400 + 719163) 3652059); cbn [andb];
    try destruct (_ord2ymd _) as [[? ?] ?];
    split; intros; try discriminate; try congruence; lia.
Qed.

(** The rendering of a time bound is the text of the minute containing it. *)
Lemma strftime_minute_rendering (t : Z) :
  representable t ->
  exists dt, fromtimestamp t = Some dt
             /\ minute_rendering_of t (strftime_minute dt).
Proof.
  unfold representable, fromtimestamp, EPOCH_ORDINAL, MAX_ORDINAL.
  cbv zeta. intros Ht.
  pose proof (Z.div_mod t 86400 ltac:(lia)) as Et.
  pose proof (Z.mod_pos_bound t 86400 ltac:(lia)) as Bt.
  set (days := t / 86400) in *. set (secs := t mod 86400) in *.
  assert (Hord : 1 <= days + 719163 <= 3652059) by lia.
  replace ((1 <=? days + 719163) && (days + 719163 <=? 3652059)) with true
    by (symmetry; apply andb_true_iff; split; apply Z.leb_le; lia).
  pose proof (ord2ymd_spec (days + 719163)) as Hspec.
  pose proof (ord2ymd_year (days + 719163) Hord) as Hyear.
  destruct (_ord2ymd (days + 719163)) as [[y m] d].
  destruct Hspec as (Hm & Hd & Hback).
  eexists. split; [reflexivity|].
  exists y, m, d, (secs / 3600), (secs mod 3600 / 60).
  pose proof (Z.div_mod secs 3600 ltac:(lia)).
  pose proof (Z.mod_pos_bound secs 3600 ltac:(lia)).
  pose proof (Z.div_mod (secs mod 3600) 60 ltac:(lia)).
  pose proof (Z.mod_pos_bound (secs mod 3600) 60 ltac:(lia)).
  split; [|split; [reflexivity|]].
  - repeat split; try lia.
  - cbv zeta. unfold EPOCH_ORDINAL. rewrite Hback. lia.
Qed.

(** ** The pager *)

Lemma yield_page_issues (l : list Issue) :
  yield_page (List.map AnIssue l) = (l, true).
Proof.
  induction l as [| i l IH]; cbn; [reflexivity|]. rewrite IH. reflexivity.
Qed.

Lemma paginate_requests_uniform (client : JIRA) (jql : str) (P : Z)
    (fields_ : option str) (fuel : nat) :
  forall start,
    Forall (fun q => req_jql q = jql /\ req_maxResults q = P
                     /\ req_fields q = fields_)
           (requests (paginate_loop fuel client jql P fields_ start)).
Proof.
  induction fuel as [| fuel IH]; intros start; cbn [paginate_loop].
  - constructor.
  - destruct (search_issues client _) as [page | e]; cbn.
    + destruct (yield_page page) as [ys ok].
      destruct ok; cbn.
      * destruct (Z.of_nat (List.length page) <? P); cbn;
          repeat constructor. apply IH.
      * repeat constructor.
    + repeat constructor.
Qed.


Section ResultSet.
Variables (base jql : str) (fields_ : option str) (results : list Issue).
Variable p : nat.
Hypothesis p_pos : (1 <= p)%nat.

Let served := result_set_client base (List.map AnIssue results).
Let P := Z.of_nat p.

(** From any offset, a pager with fuel for one page more than the full
    pages left walks the rest of the result set and returns. *)
Lemma paginate_result_set_from (fuel : nat) :
  forall off : nat,
    let rest := skipn off results in
    (List.length rest / p < fuel)%nat ->
    paginate_loop fuel served jql P fields_ (Z.of_nat off)
    = {| requests :=
           List.map (request_at jql P fields_ (Z.of_nat off))
                    (seq 0 (List.length rest / p + 1));
         issues := rest;
         pager_ending := Done |}.
Proof.
  induction fuel as [| fuel IH]; intros off rest Hfuel; [lia|].
  cbn [paginate_loop]. unfold served at 1.
  cbn [search_issues result_set_client].
  assert (Hpage :
    serve_page (List.map AnIssue results)
      {| req_jql := jql; req_startAt := Z.of_nat off;
         req_maxResults := P; req_fields := fields_ |}
    = List.map AnIssue (firstn p rest)).
  { unfold serve_page, P. cbn [req_maxResults req_startAt].
    rewrite !Nat2Z.id, skipn_map, firstn_map. reflexivity. }
  rewrite Hpage, yield_page_issues. cbn [negb].
  rewrite length_map, length_firstn.
  destruct (Z.ltb_spec (Z.of_nat (Nat.min p (List.length rest))) P)
    as [Hshort | Hfull].
  - assert (Hlt : (List.length rest < p)%nat) by (unfold P in Hshort; lia).
    rewrite Nat.div_small by exact Hlt. cbn [seq List.map Nat.add].
    rewrite firstn_all2 by lia.
    unfold request_at. rewrite Z.mul_0_l, Z.add_0_r. reflexivity.
  - assert (Hge : (p <= List.length rest)%nat) by (unfold P in Hfull; lia).
    assert (Hskip : skipn (off + p) results = skipn p rest)
      by (unfold rest; rewrite skipn_skipn; f_equal; lia).
    assert (Hlen : List.length (skipn p rest) = (List.length rest - p)%nat)
      by apply length_skipn.
    assert (Hdiv : (List.length rest / p
                    = (List.length rest - p) / p + 1)%nat).
    { rewrite <- (Nat.div_add _ 1 p) by lia. f_equal. lia. }
    replace (Z.of_nat off + P) with (Z.of_nat (off + p)) by (unfold P; lia).
    rewrite IH; cbv zeta; rewrite Hskip, Hlen; [| lia].
    f_equal.
    + rewrite Hdiv.
      rewrite (Nat.add_comm _ 1) at 2. cbn [seq List.map Nat.add].
      f_equal.
      * unfold request_at. rewrite Z.mul_0_l, Z.add_0_r. reflexivity.
      * rewrite <- seq_shift, map_map. apply map_ext. intros k.
        unfold request_at. f_equal. unfold P. lia.
    + apply firstn_skipn.
Qed.

End ResultSet.

Lemma ceiling_quotient (N P : Z) :
  0 <= N -> 1 <= P ->
  (if N mod P =? 0 then N / P + 1 else (N + P - 1) / P) = N / P + 1.
Proof.
  intros HN HP.
  pose proof (Z.div_mod N P ltac:(lia)) as E.
  pose proof (Z.mod_pos_bound N P ltac:(lia)) as B.
  destruct (Z.eqb_spec (N mod P) 0) as [H0 | Hr]; [reflexivity|].
  symmetry. apply Z.div_unique with (r := N mod P - 1); lia.
Qed.

(** The whole run of the pager over a served result set. *)
Lemma paginate_served (base jql : str) (fields_ : option str)
    (results : list Issue) (P : Z) (fuel : nat) :
  1 <= P ->
  Z.of_nat (List.length results) / P < Z.of_nat fuel ->
  _paginate_jql_search fuel
    (result_set_client base (List.map AnIssue results)) jql P fields_
  = {| requests :=
         page_requests jql P fields_
           (Z.to_nat (Z.of_nat (List.length results) / P) + 1);
       issues := results;
       pager_ending := Done |}.
Proof.
  intros HP Hfuel. set (N := Z.of_nat (List.length results)) in *.
  assert (Hp : (1 <= Z.to_nat P)%nat) by lia.
  assert (EP : Z.of_nat (Z.to_nat P) = P) by lia.
  assert (Hdiv : Z.of_nat (List.length results / Z.to_nat P) = N / P).
  { rewrite Nat2Z.inj_div, EP. reflexivity. }
  assert (HN : 0 <= N / P) by (apply Z.div_pos; lia).
  assert (Hcount : (List.length results / Z.to_nat P + 1
                    = Z.to_nat (N / P) + 1)%nat) by lia.
  assert (Hfuel' : (List.length results / Z.to_nat P < fuel)%nat) by lia.
  pose proof (paginate_result_set_from base jql fields_ results
                (Z.to_nat P) Hp fuel 0%nat) as Hrun.
  cbv zeta in Hrun. cbn [skipn] in Hrun. rewrite EP in Hrun.
  specialize (Hrun Hfuel'). unfold _paginate_jql_search.
  change 0 with (Z.of_nat 0) at 1. rewrite Hrun.
  unfold page_requests. rewrite Hcount. reflexivity.
Qed.

(** C3. Over a result set of [N] records served in pages, with a page size
    [P >= 1] and fuel for [N / P + 1] iterations, the pager returns, yields
    exactly the [N] records in their order, and issues [N / P + 1] requests
    (which is the ceiling of [N / P] unless [P] divides [N]): the first at
    offset 0, each for at most [P] records, each [P] further than the one
    before.  Over any remote, a page shorter than [P] ends the run and a
    full page is followed by a request [P] further. *)
Theorem paginate_result_set (base jql : str) (fields_ : option str)
    (results : list Issue) (P : Z) (fuel : nat) :
  1 <= P ->
  Z.of_nat (List.length results) / P < Z.of_nat fuel ->
  let N := Z.of_nat (List.length results) in
  let r := _paginate_jql_search fuel
             (result_set_client base (List.map AnIssue results))
             jql P fields_ in
  (issues r = results
   /\ pager_ending r = Done
   /\ requests r = page_requests jql P fields_ (Z.to_nat (N / P) + 1)
   /\ Z.of_nat (List.length (requests r))
      = (if N mod P =? 0 then N / P + 1 else (N + P - 1) / P))
  /\ (forall client start more page,
        let q := {| req_jql := jql; req_startAt := start;
                    req_maxResults := P; req_fields := fields_ |} in
        search_issues client q = Success page ->
        snd (yield_page page) = true ->
        (Z.of_nat (List.length page) < P ->
         paginate_loop (S more) client jql P fields_ start
         = {| requests := [q]; issues := fst (yield_page page);
              pager_ending := Done |})
        /\ (P <= Z.of_nat (List.length page) ->
            requests (paginate_loop (S more) client jql P fields_ start)
            = q :: requests (paginate_loop more client jql P fields_
                               (start + P)))).
Proof.
  intros HP Hfuel N r.
  pose proof (paginate_served base jql fields_ results P fuel HP Hfuel)
    as Hrun.
  fold N in Hrun. fold r in Hrun.
  split.
  - rewrite Hrun. cbn [issues pager_ending requests].
    repeat split.
    unfold page_requests.
    rewrite length_map, length_seq, ceiling_quotient by lia.
    assert (0 <= N / P) by (apply Z.div_pos; lia). lia.
  - intros client start more page q Hpage Hok. split; intros Hlen.
    + cbn [paginate_loop]. fold q. rewrite Hpage.
      destruct (yield_page page) as [ys ok]. cbn [snd] in Hok. subst ok.
      cbn [negb fst]. apply Z.ltb_lt in Hlen. rewrite Hlen. reflexivity.
    + cbn [paginate_loop]. fold q. rewrite Hpage.
      destruct (yield_page page) as [ys ok]. cbn [snd] in Hok. subst ok.
      cbn [negb]. apply Z.ltb_ge in Hlen. rewrite Hlen. reflexivity.
Qed.

(** Five records in pages of two: three requests, at offsets 0, 2 and 4. *)
Lemma paginate_result_set_witness :
  1 <= 2
  /\ requests (_paginate_jql_search 3 Fixture.client (lit "project = X") 2 None)
     = page_requests (lit "project = X") 2 None 3
  /\ issues (_paginate_jql_search 3 Fixture.client (lit "project = X") 2 None)
     = Fixture.records.
Proof.
  split; [lia|].
  pose proof (paginate_result_set Fixture.base_url (lit "project = X") None
                Fixture.records 2 3 ltac:(lia) eq_refl) as W.
  cbv zeta in W. destruct W as ((Hissues & _ & Hreqs & _) & _).
  split; [exact Hreqs | exact Hissues].
Defined.

(** ** Batching *)

Lemma batch_loop_spec {A : Type} (B : Z) (docs : list A) :
  1 <= B ->
  forall acc : list A,
    Z.of_nat (List.length acc) < B ->
    let total := Z.of_nat (List.length acc) + Z.of_nat (List.length docs) in
    let '(batches, last) := batch_loop B docs acc in
    Z.of_nat (List.length batches) = total / B
    /\ Forall (fun b => Z.of_nat (List.length b) = B) batches
    /\ Z.of_nat (List.length last) = total mod B
    /\ List.concat batches ++ last = acc ++ docs.
Proof.
  intros HB. induction docs as [| doc rest IH]; intros acc Hacc; cbn zeta.
  - cbn [batch_loop List.length]. rewrite Z.add_0_r, app_nil_r.
    rewrite Z.div_small, Z.mod_small by lia. repeat split; auto.
  - cbn [batch_loop]. rewrite length_app. cbn [List.length].
    destruct (Z.geb_spec (Z.of_nat (List.length acc + 1)) B)
      as [Hfull | Hroom].
    + specialize (IH [] ltac:(cbn; lia)). cbv zeta in IH.
      destruct (batch_loop B rest []) as [batches last].
      destruct IH as (Hn & Hall & Hlast & Hcat).
      cbn [List.length Z.of_nat Z.add app] in Hn, Hlast, Hcat.
      replace (Z.of_nat (List.length acc) + Z.of_nat (S (List.length rest)))
        with (Z.of_nat (List.length rest) + 1 * B) by lia.
      rewrite Z.div_add, Z.mod_add by lia.
      repeat split.
      * cbn [List.length]. lia.
      * constructor; [rewrite length_app; cbn; lia | exact Hall].
      * lia.
      * cbn [List.concat]. rewrite <- !app_assoc. rewrite Hcat. reflexivity.
    + specialize (IH (acc ++ [doc])).
      rewrite length_app in IH. cbn [List.length] in IH.
      specialize (IH ltac:(lia)). cbv zeta in IH.
      destruct (batch_loop B rest (acc ++ [doc])) as [batches last].
      destruct IH as (Hn & Hall & Hlast & Hcat).
      replace (Z.of_nat (List.length acc) + Z.of_nat (S (List.length rest)))
        with (Z.of_nat (List.length acc + 1) + Z.of_nat (List.length rest))
        by lia.
      repeat split; auto. rewrite Hcat, <- app_assoc. reflexivity.
Qed.

Lemma emit_batches_shape {A : Type} (B : Z) (inner : run A) :
  1 <= B -> ending inner = Done ->
  exists batches,
    emit_batches B inner = {| yielded := batches; ending := Done |}
    /\ batch_shape B (yielded inner) batches.
Proof.
  intros HB Hdone. unfold emit_batches.
  pose proof (batch_loop_spec B (yielded inner) HB [] ltac:(cbn; lia)) as Hspec.
  cbv zeta in Hspec. destruct (batch_loop B (yielded inner) []) as [full last].
  destruct Hspec as (Hn & Hall & Hlast & Hcat). cbn in Hn, Hlast, Hcat.
  rewrite Hdone. eexists. split; [reflexivity|].
  exists full, last. repeat split; auto.
  rewrite concat_app. cbn. rewrite app_nil_r. exact Hcat.
Qed.

Section Retrieval.
Context `{Collaborators}.

Lemma fetch_served (base jql : str) (results : list Issue) (P : Z)
    (blacklist : list str) (skip : option (list str)) (fuel : nat) :
  1 <= P ->
  Z.of_nat (List.length results) / P < Z.of_nat fuel ->
  let client := result_set_client base (List.map AnIssue results) in
  fetch_jira_issues_batch fuel client jql P blacklist skip
  = {| yielded := fst (transform client blacklist skip results);
       ending := match snd (transform client blacklist skip results) with
                 | Some e => Raised e
                 | None => Done
                 end |}.
Proof.
  intros HP Hfuel client. subst client. unfold fetch_jira_issues_batch.
  rewrite (paginate_served base jql None results P fuel HP Hfuel).
  cbn [issues pager_ending].
  destruct (transform _ blacklist skip results) as [docs e].
  reflexivity.
Qed.

Lemma shape_nonempty {A : Type} (B : Z) (docs : list A)
    (batches : list (list A)) :
  batch_shape B docs batches -> (1 <= List.length batches)%nat.
Proof.
  intros (full & last & -> & _). rewrite length_app. cbn. lia.
Qed.

(** C2. With a batch size [B >= 1], a full load whose transformer run
    returns after yielding [M] documents yields [M / B] batches of exactly
    [B] documents and then one batch of [M mod B], empty or not: at least
    one batch, and the batches put end to end are the documents in their
    order.  An incremental poll batches the same way.  Over a served result
    set of [N] records, with fuel for [N / 50 + 1] pages and no record that
    fails to encode, the transformer run does return. *)
Theorem load_from_state_batch_shape (fuel : nat) (self : JiraConnector)
    (client : JIRA) :
  _jira_client self = Some client ->
  1 <= batch_size self ->
  let shaped docs (r : run (list Document)) :=
    exists batches,
      r = {| yielded := batches; ending := Done |}
      /\ batch_shape (batch_size self) docs batches
      /\ (1 <= List.length batches)%nat in
  (forall docs,
     fetch_jira_issues_batch fuel client (_get_jql_query self)
       _JIRA_FULL_PAGE_SIZE (comment_email_blacklist self)
       (Some (labels_to_skip self))
     = {| yielded := docs; ending := Done |} ->
     shaped docs (fst (load_from_state fuel self)))
  /\ (forall start end_ jql docs,
        poll_jql self start end_ = Ok jql ->
        fetch_jira_issues_batch fuel client jql
          _JIRA_FULL_PAGE_SIZE (comment_email_blacklist self)
          (Some (labels_to_skip self))
        = {| yielded := docs; ending := Done |} ->
        shaped docs (fst (poll_source fuel start end_ self)))
  /\ (forall base results docs,
        client = result_set_client base (List.map AnIssue results) ->
        Z.of_nat (List.length results) / _JIRA_FULL_PAGE_SIZE
        < Z.of_nat fuel ->
        transform client (comment_email_blacklist self)
          (Some (labels_to_skip self)) results = (docs, None) ->
        shaped docs (fst (load_from_state fuel self))
        /\ forall start end_,
             representable start -> representable end_ ->
             shaped docs (fst (poll_source fuel start end_ self))).
Proof.
  intros Hclient HB shaped.
  assert (Hshape : forall (inner : run Document) (docs : list Document),
            inner = {| yielded := docs; ending := Done |} ->
            shaped docs (emit_batches (batch_size self) inner)).
  { intros inner docs ->.
    destruct (emit_batches_shape (batch_size self)
                {| yielded := docs; ending := Done |} HB eq_refl)
      as (batches & Hemit & Hsh).
    exists batches. repeat split; auto. eapply shape_nonempty, Hsh. }
  assert (Hload : forall docs,
            fetch_jira_issues_batch fuel client (_get_jql_query self)
              _JIRA_FULL_PAGE_SIZE (comment_email_blacklist self)
              (Some (labels_to_skip self))
            = {| yielded := docs; ending := Done |} ->
            shaped docs (fst (load_from_state fuel self))).
  { intros docs Hrun. unfold load_from_state, jira_client.
    rewrite Hclient. cbn [fst]. apply Hshape, Hrun. }
  assert (Hpoll : forall start end_ jql docs,
            poll_jql self start end_ = Ok jql ->
            fetch_jira_issues_batch fuel client jql
              _JIRA_FULL_PAGE_SIZE (comment_email_blacklist self)
              (Some (labels_to_skip self))
            = {| yielded := docs; ending := Done |} ->
            shaped docs (fst (poll_source fuel start end_ self))).
  { intros start end_ jql docs Hjql Hrun. unfold poll_source, jira_client.
    rewrite Hjql, Hclient. cbn [fst]. apply Hshape, Hrun. }
  split; [exact Hload|]. split; [exact Hpoll|].
  intros base results docs -> Hfuel Htransform.
  assert (Hfetch : forall jql,
            fetch_jira_issues_batch fuel
              (result_set_client base (List.map AnIssue results)) jql
              _JIRA_FULL_PAGE_SIZE (comment_email_blacklist self)
              (Some (labels_to_skip self))
            = {| yielded := docs; ending := Done |}).
  { intros jql.
    pose proof (fetch_served base jql results _JIRA_FULL_PAGE_SIZE
                  (comment_email_blacklist self)
                  (Some (labels_to_skip self)) fuel
                  ltac:(unfold _JIRA_FULL_PAGE_SIZE; lia) Hfuel) as Hrun.
    cbv zeta in Hrun. rewrite Htransform in Hrun. exact Hrun. }
  split.
  - apply Hload, Hfetch.
  - intros start end_ Hs He.
    destruct (poll_jql self start end_) as [jql | e] eqn:Hjql.
    + eapply Hpoll; [exact Hjql | apply Hfetch].
    + exfalso. unfold poll_jql, datetime_fromtimestamp in Hjql.
      cbn [timeval] in Hjql.
      apply fromtimestamp_representable in Hs, He.
      destruct (fromtimestamp start); [| congruence].
      destruct (fromtimestamp end_); [discriminate | congruence].
Qed.

End Retrieval.

(** Four documents survive out of five records; in batches of two they
    come as two full batches and an empty one. *)
Lemma load_from_state_batch_shape_witness :
  1 <= 2
  /\ exists batches,
       fst (load_from_state (H := Fixture.collaborators) 2
              (Fixture.connector (Some (lit "OPS")) (Some Fixture.client)))
       = {| yielded := batches; ending := Done |}
       /\ List.map (@List.length Document) batches = [2; 2; 0]%nat.
Proof.
  split; [lia|].
  pose proof (load_from_state_batch_shape (H := Fixture.collaborators) 2
                (Fixture.connector (Some (lit "OPS")) (Some Fixture.client))
                Fixture.client eq_refl ltac:(cbn; lia)) as W.
  cbv zeta in W. destruct W as (_ & _ & Hserved).
  destruct (Hserved Fixture.base_url Fixture.records _ eq_refl eq_refl eq_refl)
    as [(batches & Hrun & _) _].
  exists batches. split; [exact Hrun|].
  cbv in Hrun. injection Hrun as <-. reflexivity.
Defined.

(** ** Query construction *)

Lemma datetime_fromtimestamp_whole (t : SecondsSinceUnixEpoch) (s : Z) :
  whole_seconds t = Some s -> datetime_fromtimestamp t = fromtimestamp s.
Proof.
  unfold whole_seconds, datetime_fromtimestamp.
  destruct (timeval t) as [[timet us] |]; cbn [option_map fst];
    [intros [= ->]; reflexivity | discriminate].
Qed.

(** The query over bounds that [datetime] can hold. *)
Lemma poll_jql_rendering (self : JiraConnector)
    (start end_ : SecondsSinceUnixEpoch) (s e : Z) :
  whole_seconds start = Some s -> whole_seconds end_ = Some e ->
  representable s -> representable e ->
  exists sdt edt,
    fromtimestamp s = Some sdt /\ fromtimestamp e = Some edt
    /\ minute_rendering_of s (strftime_minute sdt)
    /\ minute_rendering_of e (strftime_minute edt)
    /\ poll_jql self start end_
       = Ok (scope_prefix (configured_project self)
             ++ lit "updated >= '" ++ strftime_minute sdt
             ++ lit "' AND updated <= '" ++ strftime_minute edt ++ lit "'").
Proof.
  intros Ws We Hs He.
  destruct (strftime_minute_rendering s Hs) as (sdt & Es & Rs).
  destruct (strftime_minute_rendering e He) as (edt & Ee & Re).
  exists sdt, edt. do 4 (split; [assumption|]).
  unfold poll_jql.
  rewrite (datetime_fromtimestamp_whole _ _ Ws), Es.
  rewrite (datetime_fromtimestamp_whole _ _ We), Ee.
  unfold _get_jql_query, quoted_jira_project.
  destruct (configured_project self) as [p |]; cbn [scope_prefix].
  - change (str_truthy (lit "project = " ++ DQUOTE ++ p ++ DQUOTE))
      with true.
    cbv iota. rewrite <- !app_assoc. reflexivity.
  - reflexivity.
Qed.

(** A bound that [datetime] cannot hold: no query. *)
Lemma poll_jql_out_of_range (self : JiraConnector)
    (start end_ : SecondsSinceUnixEpoch) :
  datetime_fromtimestamp start = None \/ datetime_fromtimestamp end_ = None ->
  poll_jql self start end_ = Raise TimestampOutOfRange.
Proof.
  unfold poll_jql. intros [-> | ->]; [reflexivity|].
  destruct (datetime_fromtimestamp start); reflexivity.
Qed.

Section QueryConstruction.
Context `{Collaborators}.

(** The poll searches with the query it built. *)
Lemma poll_source_runs_query (fuel : nat) (self : JiraConnector)
    (start end_ : SecondsSinceUnixEpoch) (jql : str) (client : JIRA) :
  poll_jql self start end_ = Ok jql ->
  _jira_client self = Some client ->
  poll_source fuel start end_ self
  = (emit_batches (batch_size self)
       (fetch_jira_issues_batch fuel client jql _JIRA_FULL_PAGE_SIZE
          (comment_email_blacklist self) (Some (labels_to_skip self))),
     self).
Proof.
  intros Hjql Hclient. unfold poll_source, jira_client.
  rewrite Hjql, Hclient. reflexivity.
Qed.

(** C1, as the code has it.  Each bound is first rounded to the nearest
    microsecond; when the whole seconds of both fall in the years 1 to 9999,
    the query of an incremental poll is the scope filter and [AND] (left out
    when no project is configured) followed by
    [updated >= 'S' AND updated <= 'E'], where [S] and [E] are the texts
    [YYYY-MM-DD HH:MM] (the year without leading zeros below 1000) of the
    UTC minutes that contain the two rounded bounds, and the poll searches
    the remote with that query; with project key [OPS] and the bounds
    1700000000 and 1700003600 the query is the predicate of the
    specification. *)
Theorem poll_source_query (fuel : nat) (self : JiraConnector)
    (start end_ : SecondsSinceUnixEpoch) (s e : Z) :
  whole_seconds start = Some s ->
  whole_seconds end_ = Some e ->
  representable s ->
  representable e ->
  (exists S E jql,
      minute_rendering_of s S
      /\ minute_rendering_of e E
      /\ jql = scope_prefix (configured_project self)
               ++ lit "updated >= '" ++ S
               ++ lit "' AND updated <= '" ++ E ++ lit "'"
      /\ poll_jql self start end_ = Ok jql
      /\ forall client,
           _jira_client self = Some client ->
           fst (poll_source fuel start end_ self)
           = emit_batches (batch_size self)
               (fetch_jira_issues_batch fuel client jql _JIRA_FULL_PAGE_SIZE
                  (comment_email_blacklist self)
                  (Some (labels_to_skip self))))
  /\ (jira_project self = Some (lit "OPS") ->
      poll_jql self 1700000000 1700003600
      = Ok (lit "project = " ++ DQUOTE ++ lit "OPS" ++ DQUOTE
            ++ lit " AND updated >= '2023-11-14 22:13'"
            ++ lit " AND updated <= '2023-11-14 23:13'")).
Proof.
  intros Ws We Hs He. split.
  - destruct (poll_jql_rendering self start end_ s e Ws We Hs He)
      as (sdt & edt & _ & _ & Rs & Re & Hjql).
    exists (strftime_minute sdt), (strftime_minute edt).
    eexists. split; [exact Rs|]. split; [exact Re|].
    split; [reflexivity|]. split; [exact Hjql|].
    intros client Hclient.
    rewrite (poll_source_runs_query fuel self start end_ _ client Hjql Hclient).
    reflexivity.
  - intros Hops. unfold poll_jql, _get_jql_query, quoted_jira_project,
      configured_project. rewrite Hops. vm_compute. reflexivity.
Qed.

End QueryConstruction.

(** Against a remote that answers the predicate of the specification and
    no other query, the poll of the example gets its four documents. *)
Lemma poll_source_query_witness :
  representable 1700000000 /\ representable 1700003600
  /\ poll_jql (Fixture.connector (Some (lit "OPS")) None)
       1700000000 1700003600
     = Ok Fixture.ops_window_query
  /\ exists batches,
       fst (poll_source (H := Fixture.collaborators) 1 1700000000 1700003600
              (Fixture.connector (Some (lit "OPS"))
                 (Some (answering_only Fixture.ops_window_query
                          Fixture.client))))
       = {| yielded := batches; ending := Done |}
       /\ List.map (@List.length Document) batches = [2; 2; 0]%nat.
Proof.
  assert (H1 : representable 1700000000) by (unfold representable; lia).
  assert (H2 : representable 1700003600) by (unfold representable; lia).
  split; [exact H1 | split; [exact H2 |]].
  split.
  - exact (proj2 (poll_source_query (H := Fixture.collaborators) 1
                    (Fixture.connector (Some (lit "OPS")) None)
                    1700000000 1700003600 _ _ eq_refl eq_refl H1 H2)
                 eq_refl).
  - destruct (poll_source_query (H := Fixture.collaborators) 1
                (Fixture.connector (Some (lit "OPS"))
                   (Some (answering_only Fixture.ops_window_query
                            Fixture.client)))
                1700000000 1700003600 _ _ eq_refl eq_refl H1 H2)
      as [(S & E & jql & _ & _ & _ & Hjql & Hrun) Hops].
    specialize (Hops eq_refl). rewrite Hops in Hjql.
    assert (Hq : jql = Fixture.ops_window_query).
    { apply (f_equal (fun r => match r with Ok q => q | Raise _ => [] end))
        in Hjql. cbv beta iota in Hjql. symmetry. exact Hjql. }
    specialize (Hrun _ eq_refl). rewrite Hq in Hrun.
    eexists. split; [rewrite Hrun; vm_compute; reflexivity|].
    reflexivity.
Defined.

(** A bound past the year 9999 leaves the poll without a query: the date
    conversion fails before anything is asked of the remote.  And a bound
    is rendered after it has been rounded to the microsecond: a float less
    than a third of a microsecond under the first minute is rendered as
    the second minute. *)
Lemma poll_source_query_counterexample :
  poll_jql (Fixture.connector (Some (lit "OPS")) (Some Fixture.client))
    1700000000 253402300800
  = Raise TimestampOutOfRange
  /\ fst (poll_source (H := Fixture.collaborators) 1 1700000000 253402300800
            (Fixture.connector (Some (lit "OPS")) (Some Fixture.client)))
     = raising TimestampOutOfRange
  /\ PrimFloat.ltb BinaryFloat.just_under_sixty BinaryFloat.sixty = true
  /\ poll_jql (Fixture.connector None (Some Fixture.client))
       (FloatSeconds BinaryFloat.just_under_sixty) 3600
     = Ok (lit "updated >= '1970-01-01 00:01'"
           ++ lit " AND updated <= '1970-01-01 01:00'").
Proof.
  split; [reflexivity|]. split; [reflexivity|].
  split; [reflexivity|]. vm_compute. reflexivity.
Qed.

(** Before the year 1000 the year comes without leading zeros. *)
Example poll_jql_year_999 :
  poll_jql (Fixture.connector None None) (-30610224001) (-30610224000)
  = Ok (lit "updated >= '999-12-31 23:59'"
        ++ lit " AND updated <= '1000-01-01 00:00'").
Proof. vm_compute. reflexivity. Qed.

(** ** Text and UTF-8 *)

Lemma str_eqb_eq (a b : str) : str_eqb a b = true <-> a = b.
Proof.
  unfold str_eqb. destruct (list_eq_dec N.eq_dec a b); split;
    intros; auto; discriminate.
Qed.

(** A code point takes one to four bytes, by its range. *)
Lemma encode_codepoint_length (c : codepoint) (bytes : list N) :
  encode_codepoint c = Some bytes ->
  List.length bytes
  = if (c <? 0x80)%N then 1%nat else if (c <? 0x800)%N then 2%nat
    else if (c <? 0x10000)%N then 3%nat else 4%nat.
Proof.
  unfold encode_codepoint.
  destruct (c <? 0x80)%N; [intros [= <-]; reflexivity|].
  destruct (c <? 0x800)%N; [intros [= <-]; reflexivity|].
  destruct ((0xD800 <=? c) && (c <=? 0xDFFF))%N; [discriminate|].
  destruct (c <? 0x10000)%N; [intros [= <-]; reflexivity|].
  destruct (c <=? 0x10FFFF)%N; [intros [= <-]; reflexivity | discriminate].
Qed.

(** ** The record transformer *)

Section TransformerProperties.
Context `{Collaborators}.
Variables (client : JIRA) (blacklist : list str).

Lemma has_label_to_skip_iff (issue : Issue) (skip : list str) :
  has_label_to_skip issue skip = true
  <-> exists l, In l skip /\ In l (labels (fields issue)).
Proof.
  unfold has_label_to_skip. rewrite existsb_exists. split.
  - intros (l & Hl & Hex). apply existsb_exists in Hex.
    destruct Hex as (l' & Hl' & Heq). apply str_eqb_eq in Heq. subst l'.
    eauto.
  - intros (l & Hl & Hin). exists l. split; [exact Hl|].
    apply existsb_exists. exists l. split; [exact Hin|].
    apply str_eqb_eq. reflexivity.
Qed.

Lemma label_filter_skips_iff (issue : Issue) (skip : option (list str)) :
  label_filter_skips issue skip = true
  <-> exists s l, skip = Some s /\ In l s /\ In l (labels (fields issue)).
Proof.
  unfold label_filter_skips. destruct skip as [[| l0 s] |].
  - split; [discriminate|]. intros (s & l & [= <-] & [] & _).
  - rewrite has_label_to_skip_iff. split.
    + intros (l & Hl & Hin). eauto.
    + intros (s' & l & [= <-] & Hl & Hin). eauto.
  - split; [discriminate|]. intros (s & l & [=] & _).
Qed.

(** A record that passes both filters is emitted, with the assembled
    content as its text. *)
Lemma process_issue_emits (skip : option (list str)) (issue : Issue)
    (bytes : list N) :
  label_filter_skips issue skip = false ->
  encode_utf8 (ticket_content_of issue blacklist) = Some bytes ->
  Z.of_nat (List.length bytes) <= JIRA_CONNECTOR_MAX_TICKET_SIZE ->
  process_issue client blacklist skip issue
  = Emit (build_document client issue (ticket_content_of issue blacklist)).
Proof.
  intros Hlabel Henc Hsize. unfold process_issue.
  rewrite Hlabel, Henc.
  destruct (Z.gtb_spec (Z.of_nat (List.length bytes))
              JIRA_CONNECTOR_MAX_TICKET_SIZE); [lia | reflexivity].
Qed.

Lemma process_issue_Emit_inv (skip : option (list str)) (issue : Issue)
    (doc : Document) :
  process_issue client blacklist skip issue = Emit doc ->
  label_filter_skips issue skip = false
  /\ doc = build_document client issue (ticket_content_of issue blacklist).
Proof.
  unfold process_issue.
  destruct (label_filter_skips issue skip); [discriminate|].
  destruct (encode_utf8 _) as [bytes |]; [| discriminate].
  destruct (_ >? _); [discriminate|]. intros [= <-]. auto.
Qed.

(** Every document of the output comes from a record that the loop
    emitted. *)
Lemma transform_In (skip : option (list str)) (records : list Issue) :
  forall docs e doc,
    transform client blacklist skip records = (docs, e) ->
    In doc docs ->
    exists issue,
      In issue records
      /\ process_issue client blacklist skip issue = Emit doc.
Proof.
  induction records as [| issue rest IH]; intros docs e doc; cbn [transform].
  - intros [= <- <-] [].
  - destruct (process_issue client blacklist skip issue) as [| d | e'] eqn:Hp.
    + intros Hrest Hin. destruct (IH _ _ _ Hrest Hin) as (i & Hi & Hemit).
      exists i. split; [right; exact Hi | exact Hemit].
    + destruct (transform client blacklist skip rest) as [docs' e''] eqn:Hrest.
      intros [= <- <-] [<- | Hin].
      * exists issue. split; [left; reflexivity | exact Hp].
      * destruct (IH _ _ _ eq_refl Hin) as (i & Hi & Hemit).
        exists i. split; [right; exact Hi | exact Hemit].
    + intros [= <- <-] [].
Qed.


(** The content of a record with comments: the description, then each
    surviving comment under its marker, one per line. *)
Example assembled_content :
  ticket_content_of (H := Fixture.collaborators) Fixture.commented
    [lit " b@X.org "]
  = lit "0123456789" ++ NEWLINE ++ lit "Comment: first" ++ NEWLINE
    ++ lit "Comment: third".
Proof. reflexivity. Qed.

(** C4. A record that passes the label filter and whose assembled content
    takes more UTF-8 bytes than the configured maximum is skipped, with no
    error, and the loop goes on with the next record; one whose content is
    exactly at the maximum (or below) is emitted with that content. *)
Theorem size_filter_boundary (skip : option (list str)) (issue : Issue)
    (bytes : list N) :
  label_filter_skips issue skip = false ->
  encode_utf8 (ticket_content_of issue blacklist) = Some bytes ->
  let size := Z.of_nat (List.length bytes) in
  let doc := build_document client issue (ticket_content_of issue blacklist) in
  (size > JIRA_CONNECTOR_MAX_TICKET_SIZE ->
   process_issue client blacklist skip issue = Skip
   /\ forall rest,
        transform client blacklist skip (issue :: rest)
        = transform client blacklist skip rest)
  /\ (size = JIRA_CONNECTOR_MAX_TICKET_SIZE ->
      process_issue client blacklist skip issue = Emit doc)
  /\ (size <= JIRA_CONNECTOR_MAX_TICKET_SIZE ->
      process_issue client blacklist skip issue = Emit doc
      /\ forall rest,
           fst (transform client blacklist skip (issue :: rest))
           = doc :: fst (transform client blacklist skip rest)).
Proof.
  intros Hlabel Henc size doc.
  assert (Hover : size > JIRA_CONNECTOR_MAX_TICKET_SIZE ->
                  process_issue client blacklist skip issue = Skip).
  { intros Hgt. unfold process_issue. rewrite Hlabel, Henc. fold size.
    destruct (Z.gtb_spec size JIRA_CONNECTOR_MAX_TICKET_SIZE);
      [reflexivity | lia]. }
  assert (Hfit : size <= JIRA_CONNECTOR_MAX_TICKET_SIZE ->
                 process_issue client blacklist skip issue = Emit doc).
  { intros Hle. eapply process_issue_emits; eauto. }
  repeat split.
  - auto.
  - intros rest. cbn [transform]. rewrite Hover by assumption. reflexivity.
  - intros Heq. apply Hfit. lia.
  - auto.
  - intros rest. cbn [transform]. rewrite Hfit by assumption.
    destruct (transform client blacklist skip rest). reflexivity.
Qed.

(** C7. With a non-empty set of labels to skip, a record that carries one
    of them is skipped, with no error, and no document of the output comes
    from such a record; a record that carries none of them goes on to the
    assembly of its content and the size check.  A label is matched when it
    is the same text, letter case included. *)
Theorem label_filter (skip : list str) (issue : Issue) :
  skip <> [] ->
  let hit i := exists l, In l skip /\ In l (labels (fields i)) in
  (hit issue ->
   process_issue client blacklist (Some skip) issue = Skip
   /\ forall rest,
        transform client blacklist (Some skip) (issue :: rest)
        = transform client blacklist (Some skip) rest)
  /\ (~ hit issue ->
      process_issue client blacklist (Some skip) issue
      = match encode_utf8 (ticket_content_of issue blacklist) with
        | None => Fail UnicodeEncodeError
        | Some bytes =>
            if Z.of_nat (List.length bytes) >? JIRA_CONNECTOR_MAX_TICKET_SIZE
            then Skip
            else Emit (build_document client issue
                         (ticket_content_of issue blacklist))
        end)
  /\ (forall records docs e doc,
        transform client blacklist (Some skip) records = (docs, e) ->
        In doc docs ->
        exists i,
          In i records /\ ~ hit i
          /\ doc = build_document client i (ticket_content_of i blacklist))
  /\ (label_filter_skips Fixture.labelled (Some [lit "Secret"]) = true
      /\ label_filter_skips Fixture.labelled (Some [lit "secret"]) = false).
Proof.
  intros Hne hit.
  assert (Hiff : forall i, label_filter_skips i (Some skip) = true <-> hit i).
  { intros i. rewrite label_filter_skips_iff. unfold hit. split.
    - intros (s & l & [= <-] & Hl & Hin). eauto.
    - intros (l & Hl & Hin). eauto. }
  assert (Hskip : hit issue ->
                  process_issue client blacklist (Some skip) issue = Skip).
  { intros Hhit. unfold process_issue.
    rewrite (proj2 (Hiff issue) Hhit). reflexivity. }
  repeat split.
  - auto.
  - intros rest. cbn [transform]. rewrite Hskip by assumption. reflexivity.
  - intros Hmiss. unfold process_issue.
    destruct (label_filter_skips issue (Some skip)) eqn:Hl; [| reflexivity].
    exfalso. apply Hmiss, Hiff, Hl.
  - intros records docs e doc Hrun Hin.
    destruct (transform_In _ _ _ _ _ Hrun Hin) as (i & Hi & Hemit).
    apply process_issue_Emit_inv in Hemit. destruct Hemit as [Hl ->].
    exists i. repeat split; auto.
    intros Hhit. apply Hiff in Hhit. congruence.
Qed.

(** The owners of a set with one person, and of the empty set, whatever the
    order in which a set is listed. *)
Lemma owners_of_one (person : BasicExpertInfo) :
  list_or_None (list_of_set [person]) = Some [person].
Proof.
  rewrite (Permutation_length_1_inv (list_of_set_elements [person])).
  reflexivity.
Qed.

Lemma owners_of_none : list_or_None (list_of_set []) = None.
Proof.
  rewrite (Permutation_nil (list_of_set_elements [])). reflexivity.
Qed.

(** C9. Creator and assignee are resolved one after the other, each under
    its own handler: a failure of one neither stops the other nor the
    record.  For a record that passes the filters a document is emitted
    whatever the two resolutions do, and it is in the output of the loop,
    which goes on with the next record; its owners are the one person
    resolved when the other resolution fails, and absent when both fail. *)
Theorem owner_resilience (skip : option (list str)) (issue : Issue)
    (bytes : list N) :
  label_filter_skips issue skip = false ->
  encode_utf8 (ticket_content_of issue blacklist) = Some bytes ->
  Z.of_nat (List.length bytes) <= JIRA_CONNECTOR_MAX_TICKET_SIZE ->
  let creator_info :=
    best_effort_basic_expert_info
      (best_effort_get_field_from_issue issue creator) in
  let assignee_info :=
    best_effort_basic_expert_info
      (best_effort_get_field_from_issue issue assignee) in
  exists doc,
    process_issue client blacklist skip issue = Emit doc
    /\ (forall person e,
          creator_info = Ok (Some person) -> assignee_info = Raise e ->
          primary_owners doc = Some [person])
    /\ (forall person e,
          creator_info = Raise e -> assignee_info = Ok (Some person) ->
          primary_owners doc = Some [person])
    /\ (forall e1 e2,
          creator_info = Raise e1 -> assignee_info = Raise e2 ->
          primary_owners doc = None)
    /\ (forall rest,
          fst (transform client blacklist skip (issue :: rest))
          = doc :: fst (transform client blacklist skip rest)).
Proof.
  intros Hlabel Henc Hsize creator_info assignee_info.
  pose proof (process_issue_emits skip issue bytes Hlabel Henc Hsize)
    as Hemit.
  eexists. split; [exact Hemit|].
  cbn [primary_owners build_document]. unfold people_of, add_person.
  fold creator_info assignee_info.
  split; [| split; [| split]].
  - intros person e -> ->. cbn [set_add empty_set]. apply owners_of_one.
  - intros person e -> ->. cbn [set_add empty_set]. apply owners_of_one.
  - intros e1 e2 -> ->. cbn [empty_set]. apply owners_of_none.
  - intros rest. cbn [transform]. rewrite Hemit.
    destruct (transform client blacklist skip rest). reflexivity.
Qed.

(** C10. In the plain-text mode of the API, a record without a description
    has the text [None] and a newline at the head of its assembled content,
    and so has the document emitted for it; in either mode a record with no
    surviving comment has its description followed by a newline as its
    whole content. *)
Theorem missing_description_reads_None (skip : option (list str))
    (issue : Issue) :
  (JIRA_API_VERSION = lit "2" ->
   description (fields issue) = None ->
   starts_with (lit "None" ++ NEWLINE) (ticket_content_of issue blacklist)
   /\ forall doc,
        process_issue client blacklist skip issue = Emit doc ->
        exists rest,
          sections doc
          = [ {| link := id doc; text := lit "None" ++ NEWLINE ++ rest |} ])
  /\ (List.filter str_truthy (get_comment_strs issue blacklist) = [] ->
      ticket_content_of issue blacklist = issue_description issue ++ NEWLINE
      /\ ends_with NEWLINE (ticket_content_of issue blacklist)).
Proof.
  split.
  - intros Hv Hd.
    assert (Hcontent :
      exists rest,
        ticket_content_of issue blacklist = lit "None" ++ NEWLINE ++ rest).
    { unfold ticket_content_of, issue_description. rewrite Hv, Hd.
      cbn [format_optional].
      replace (str_eqb (lit "2") (lit "2")) with true by reflexivity.
      eexists. rewrite <- !app_assoc. reflexivity. }
    destruct Hcontent as (rest & Hcontent). split.
    + exists rest. rewrite Hcontent, <- app_assoc. reflexivity.
    + intros doc Hemit. apply process_issue_Emit_inv in Hemit.
      destruct Hemit as [_ ->]. exists rest.
      cbn [sections id build_document]. rewrite Hcontent. reflexivity.
  - intros Hnone. unfold ticket_content_of. rewrite Hnone. cbn [List.map join].
    rewrite app_nil_r. split; [reflexivity|].
    exists (issue_description issue). reflexivity.
Qed.

End TransformerProperties.

(** The record at the limit is emitted, the one a byte over is skipped. *)
Lemma size_filter_boundary_witness :
  process_issue (H := Fixture.collaborators) Fixture.client []
    (Some [lit "secret"]) Fixture.at_limit
  = Emit (build_document (H := Fixture.collaborators) Fixture.client
            Fixture.at_limit (lit "0123456789012345678" ++ NEWLINE))
  /\ process_issue (H := Fixture.collaborators) Fixture.client []
       (Some [lit "secret"]) Fixture.over_limit
     = Skip.
Proof.
  split.
  - pose proof (size_filter_boundary (H := Fixture.collaborators)
                  Fixture.client [] (Some [lit "secret"]) Fixture.at_limit
                  _ eq_refl eq_refl) as W.
    cbv zeta in W. destruct W as (_ & Hat & _). exact (Hat eq_refl).
  - pose proof (size_filter_boundary (H := Fixture.collaborators)
                  Fixture.client [] (Some [lit "secret"]) Fixture.over_limit
                  _ eq_refl eq_refl) as W.
    cbv zeta in W. destruct W as (Hover & _). exact (proj1 (Hover eq_refl)).
Defined.

Lemma label_filter_witness :
  [lit "Secret"] <> []
  /\ process_issue (H := Fixture.collaborators) Fixture.client []
       (Some [lit "Secret"]) Fixture.labelled
     = Skip.
Proof.
  assert (Hne : [lit "Secret"] <> []) by discriminate.
  split; [exact Hne|].
  pose proof (label_filter (H := Fixture.collaborators) Fixture.client []
                [lit "Secret"] Fixture.labelled Hne) as W.
  cbv zeta in W. destruct W as (Hhit & _).
  apply Hhit. exists (lit "Secret"). split; left; reflexivity.
Defined.

(** A malformed assignee and a valid creator: one owner.  No creator and a
    malformed assignee: a document without owners.  Both documents are in
    the output of the loop, in the order of their records. *)
Lemma owner_resilience_witness :
  exists doc1 doc2,
    process_issue (H := Fixture.collaborators) Fixture.client []
      (Some [lit "secret"]) Fixture.undescribed = Emit doc1
    /\ process_issue (H := Fixture.collaborators) Fixture.client []
         (Some [lit "secret"]) Fixture.orphan = Emit doc2
    /\ primary_owners doc1
       = Some [ {| display_name := Some (lit "Ada");
                   email := Some (lit "ada@example.com") |} ]
    /\ primary_owners doc2 = None
    /\ fst (transform (H := Fixture.collaborators) Fixture.client []
              (Some [lit "secret"]) [Fixture.undescribed; Fixture.orphan])
       = [doc1; doc2].
Proof.
  destruct (owner_resilience (H := Fixture.collaborators) Fixture.client []
              (Some [lit "secret"]) Fixture.undescribed _
              eq_refl eq_refl ltac:(cbn; lia))
    as (doc1 & Hemit1 & Hone & _ & _ & Hrun1).
  destruct (owner_resilience (H := Fixture.collaborators) Fixture.client []
              (Some [lit "secret"]) Fixture.orphan _
              eq_refl eq_refl ltac:(cbn; lia))
    as (doc2 & Hemit2 & _ & _ & Hnone & Hrun2).
  exists doc1, doc2.
  split; [exact Hemit1|]. split; [exact Hemit2|].
  split; [eapply Hone; reflexivity|].
  split; [eapply Hnone; reflexivity|].
  rewrite Hrun1, Hrun2. reflexivity.
Defined.

(** In the plain-text mode a record without description is emitted with
    [None] and a newline as its whole content. *)
Lemma missing_description_reads_None_witness :
  JIRA_API_VERSION (H := Fixture.collaborators) = lit "2"
  /\ exists doc,
       process_issue (H := Fixture.collaborators) Fixture.client []
         (Some [lit "secret"]) Fixture.undescribed = Emit doc
       /\ List.map text (sections doc) = [lit "None" ++ NEWLINE].
Proof.
  split; [reflexivity|].
  eexists. split; [reflexivity|].
  destruct (missing_description_reads_None (H := Fixture.collaborators)
              Fixture.client [] (Some [lit "secret"]) Fixture.undescribed)
    as [Hhead Htail].
  destruct (Htail eq_refl) as [Hcontent _].
  cbn [sections build_document List.map text]. rewrite Hcontent. reflexivity.
Defined.

(** ** The connector *)



(** C5, as the code has it.  On a connector with a client, validation
    returns normally when the remote call succeeds and otherwise maps the
    status of the failure: 401 to [CredentialExpiredError], 403 to
    [InsufficientPermissionsError], 429 to [ConnectorValidationError]; 404 to
    [ConnectorValidationError] with the project key in its message when a
    project is configured; every other failure, and 404 when no project is
    configured, to [RuntimeError] with the original message. *)
Theorem validate_status_mapping (self : JiraConnector) (client : JIRA) :
  _jira_client self = Some client ->
  let result := fst (validate_connector_settings self) in
  let response :=
    match configured_project self with
    | Some p => project client p
    | None => projects client
    end in
  let unexpected e :=
    RuntimeError (lit "Unexpected Jira error during validation: "
                  ++ message e) in
  (forall u, response = Success u -> result = Ok tt)
  /\ (forall e,
        response = Failure e ->
        (status_code e = Some 401 ->
         exists msg, result = Raise (CredentialExpiredError msg))
        /\ (status_code e = Some 403 ->
            exists msg, result = Raise (InsufficientPermissionsError msg))
        /\ (status_code e = Some 429 ->
            exists msg, result = Raise (ConnectorValidationError msg))
        /\ (status_code e = Some 404 ->
            match configured_project self with
            | Some p =>
                exists msg, result = Raise (ConnectorValidationError msg)
                            /\ contains p msg
            | None => result = Raise (unexpected e)
            end)
        /\ (status_code e <> Some 401 -> status_code e <> Some 403 ->
            status_code e <> Some 404 -> status_code e <> Some 429 ->
            result = Raise (unexpected e)))
  /\ snd (validate_connector_settings self) = self.
Proof.
  intros Hclient result response unexpected.
  unfold result, validate_connector_settings. rewrite Hclient. cbn [fst snd].
  unfold response. clear result response.
  split; [| split; [| reflexivity]].
  - intros u. destruct (configured_project self) as [p |]; intros ->;
      reflexivity.
  - intros e.
    destruct (configured_project self) as [p |]; intros ->;
      unfold classify_project_failure, classify_listing_failure;
      (repeat split;
       [ intros ->; eexists; reflexivity
       | intros ->; eexists; reflexivity
       | intros ->; eexists; reflexivity
       | intros ->
       | intros H401 H403 H404 H429 ]).
    + eexists. split; [reflexivity|].
      exists (lit "Jira project not found with key: "), [].
      rewrite app_nil_r. reflexivity.
    + destruct (status_code e) as [[| c | c] |]; try reflexivity.
      do 9 (destruct c as [c | c |]; try reflexivity); congruence.
    + reflexivity.
    + destruct (status_code e) as [[| c | c] |]; try reflexivity.
      do 9 (destruct c as [c | c |]; try reflexivity); congruence.
Qed.

(** A project-scoped validation against a remote that answers 404 raises
    [ConnectorValidationError] with the project key in the message. *)
Lemma validate_status_mapping_witness :
  exists msg,
    fst (validate_connector_settings
           (Fixture.connector (Some (lit "OPS"))
              (Some (Fixture.failing_client 404))))
    = Raise (ConnectorValidationError msg)
    /\ contains (lit "OPS") msg.
Proof.
  pose proof (validate_status_mapping
                (Fixture.connector (Some (lit "OPS"))
                   (Some (Fixture.failing_client 404)))
                (Fixture.failing_client 404) eq_refl) as W.
  cbv zeta in W. destruct W as (_ & Hfail & _).
  destruct (Hfail _ eq_refl) as (_ & _ & _ & H404 & _).
  exact (H404 eq_refl).
Defined.

(** C5 as stated fails: with no project configured, a remote that answers
    404 makes validation raise [RuntimeError], not a validation error. *)
Lemma validate_unscoped_404_counterexample :
  projects (Fixture.failing_client 404)
  = Failure {| status_code := Some 404; message := lit "remote said no" |}
  /\ fst (validate_connector_settings
            (Fixture.connector None (Some (Fixture.failing_client 404))))
     = Raise (RuntimeError
                (lit "Unexpected Jira error during validation: remote said no"))
  /\ ~ (exists msg,
          fst (validate_connector_settings
                 (Fixture.connector None (Some (Fixture.failing_client 404))))
          = Raise (ConnectorValidationError msg)).
Proof.
  split; [reflexivity|]. split; [reflexivity|].
  intros [msg Hmsg]. vm_compute in Hmsg. discriminate.
Qed.

Section ConnectorProperties.
Context `{Collaborators}.






End ConnectorProperties.



(** C8. The identifier listing takes time bounds and never looks at them:
    with any bounds it is the run it is with none.  Every request carries
    the scope-only query, asks for the [key] field alone and for pages of
    500; when the pager returns, the slim documents come in batches of 500
    followed by one batch with the remainder, empty or not, and over a
    served result set of [N] records, with fuel for [N / 500 + 1] pages,
    the pager does return. *)
Theorem slim_ignores_time_bounds (fuel : nat) (self : JiraConnector)
    (start end_ : option SecondsSinceUnixEpoch) :
  let listing := fst (retrieve_all_slim_documents fuel start end_ self) in
  let shaped slim_docs :=
    exists batches,
      slim_batches listing = {| yielded := batches; ending := Done |}
      /\ batch_shape 500 slim_docs batches in
  retrieve_all_slim_documents fuel start end_ self
  = retrieve_all_slim_documents fuel None None self
  /\ Forall (fun q => req_jql q = _get_jql_query self
                      /\ req_fields q = Some (lit "key")
                      /\ req_maxResults q = 500)
            (slim_requests listing)
  /\ (forall client,
        _jira_client self = Some client ->
        let pager :=
          _paginate_jql_search fuel client (_get_jql_query self) 500
            (Some (lit "key")) in
        pager_ending pager = Done ->
        shaped (List.map (slim_document client) (issues pager)))
  /\ (forall base results,
        let client := result_set_client base (List.map AnIssue results) in
        _jira_client self = Some client ->
        Z.of_nat (List.length results) / 500 < Z.of_nat fuel ->
        shaped (List.map (slim_document client) results)).
Proof.
  intros listing shaped.
  assert (Hshape : forall client,
            _jira_client self = Some client ->
            let pager :=
              _paginate_jql_search fuel client (_get_jql_query self) 500
                (Some (lit "key")) in
            pager_ending pager = Done ->
            shaped (List.map (slim_document client) (issues pager))).
  { intros client Hclient pager Hdone.
    unfold shaped, listing, retrieve_all_slim_documents, jira_client.
    rewrite Hclient. cbn [fst slim_batches]. fold pager.
    apply (emit_batches_shape _JIRA_SLIM_PAGE_SIZE
             {| yielded := List.map (slim_document client) (issues pager);
                ending := pager_ending pager |}).
    - unfold _JIRA_SLIM_PAGE_SIZE. lia.
    - exact Hdone. }
  split; [reflexivity|]. split; [| split; [exact Hshape|]].
  - unfold listing, retrieve_all_slim_documents, jira_client.
    destruct (_jira_client self) as [client |]; cbn [fst slim_requests].
    + unfold _paginate_jql_search.
      eapply Forall_impl;
        [| apply (paginate_requests_uniform client (_get_jql_query self)
                    _JIRA_SLIM_PAGE_SIZE (Some (lit "key")) fuel 0)].
      intros q (Hjql & Hmax & Hfields). auto.
    + constructor.
  - intros base results client Hclient Hfuel.
    pose proof (paginate_served base (_get_jql_query self) (Some (lit "key"))
                  results 500 fuel ltac:(lia) Hfuel) as Hrun.
    specialize (Hshape client Hclient). cbv zeta in Hshape.
    subst client. rewrite Hrun in Hshape.
    apply Hshape. reflexivity.
Qed.

(** Five records listed with bounds: one request for 500 keys, one batch. *)
Lemma slim_ignores_time_bounds_witness :
  exists batches,
    slim_batches
      (fst (retrieve_all_slim_documents 1
              (Some (IntSeconds 1700000000)) (Some (IntSeconds 1700003600))
              (Fixture.connector None (Some Fixture.client))))
    = {| yielded := batches; ending := Done |}
    /\ List.map (@List.length SlimDocument) batches = [5%nat].
Proof.
  pose proof (slim_ignores_time_bounds 1
                (Fixture.connector None (Some Fixture.client))
                (Some (IntSeconds 1700000000))
                (Some (IntSeconds 1700003600))) as W.
  cbv zeta in W. destruct W as (_ & _ & _ & Hserved).
  destruct (Hserved Fixture.base_url Fixture.records eq_refl eq_refl)
    as (batches & Hrun & _).
  exists batches. split; [exact Hrun|].
  cbv in Hrun. injection Hrun as <-. reflexivity.
Defined.

(* ================================================================== *)
(** * Part III. Further properties of the connector                    *)
(* ================================================================== *)

(** ** Definitions used to state them *)

(** What a request brought back to the pager: the issues at the head of
    its page, nothing when the remote failed. *)
Definition issues_served (client : JIRA) (q : Request) : list Issue :=
  match search_issues client q with
  | Success page => fst (yield_page page)
  | Failure _ => []
  end.

(** A remote that never hands over more than [cap] records in one page,
    whatever page size it is asked for. *)
Definition capped_client (base : str) (cap : nat) (results : list Issue) :
    JIRA :=
  {| client_info := base;
     search_issues := fun req =>
       Success (firstn (Nat.min cap (Z.to_nat (req_maxResults req)))
                  (skipn (Z.to_nat (req_startAt req))
                         (List.map AnIssue results)));
     project := fun _ => Success tt;
     projects := Success tt |}.

(** [s] is [raw] without the whitespace at its two ends. *)
Definition trimmed_of (raw s : str) : Prop :=
  exists pre post,
    raw = pre ++ s ++ post
    /\ forallb isspace pre = true
    /\ forallb isspace post = true
    /\ (forall c, hd_error s = Some c -> isspace c = false)
    /\ (forall c, hd_error (rev s) = Some c -> isspace c = false).


(** The connector with another client handle and nothing else changed. *)
Definition with_client (self : JiraConnector) (client : JIRA) :
    JiraConnector :=
  {| batch_size := batch_size self;
     jira_base := jira_base self;
     jira_project := jira_project self;
     _comment_email_blacklist := _comment_email_blacklist self;
     labels_to_skip := labels_to_skip self;
     _jira_client := Some client |}.

(** A decimal digit. *)
Definition is_digit (c : codepoint) : Prop := (48 <= c <= 57)%N.

Section Decisions.
Context `{Collaborators}.

(** Whether the loop of the transformer emits a document for the record:
    it passes the label filter and its content, encoded, fits the size. *)
Definition survives (blacklist : list str) (skip : option (list str))
    (issue : Issue) : bool :=
  negb (label_filter_skips issue skip)
  && match encode_utf8 (ticket_content_of issue blacklist) with
     | Some bytes =>
         negb (Z.of_nat (List.length bytes) >? JIRA_CONNECTOR_MAX_TICKET_SIZE)
     | None => false
     end.

(** The record passes the label filter and its content has no UTF-8 form. *)
Definition unencodable (blacklist : list str) (skip : option (list str))
    (issue : Issue) : Prop :=
  label_filter_skips issue skip = false
  /\ encode_utf8 (ticket_content_of issue blacklist) = None.

(** The person object resolves to a descriptor. *)
Definition resolves_to (person : json) (info : BasicExpertInfo) : Prop :=
  best_effort_basic_expert_info person = Ok (Some info).

End Decisions.

(** Records for the edge cases: one whose description holds a lone
    surrogate, which has no UTF-8 form. *)
Module Edge.

Definition surrogate : Issue :=
  Fixture.issue_with "OPS-60" (Some [0xD800%N]) [] Fixture.ada Fixture.ada [].

Definition records : list Issue :=
  [Fixture.plain "OPS-1"; Fixture.plain "OPS-2"; Fixture.plain "OPS-3";
   surrogate; Fixture.plain "OPS-4"].

Definition client : JIRA :=
  result_set_client Fixture.base_url (List.map AnIssue records).

Definition connector (size : Z) (c : JIRA) : JiraConnector :=
  {| batch_size := size; jira_base := Fixture.base_url;
     jira_project := Some []; _comment_email_blacklist := [lit " a@x.org "];
     labels_to_skip := []; _jira_client := Some c |}.

End Edge.

(** ** The pager, over any remote *)

Lemma request_at_shift (jql : str) (P : Z) (fields_ : option str)
    (start : Z) (n : nat) :
  List.map (request_at jql P fields_ (start + P)) (seq 0 n)
  = List.map (request_at jql P fields_ start) (seq 1 n).
Proof.
  rewrite <- seq_shift, map_map. apply map_ext. intros k.
  unfold request_at. f_equal. lia.
Qed.

Lemma paginate_loop_trace (client : JIRA) (jql : str) (P : Z)
    (fields_ : option str) (fuel : nat) :
  forall start,
    let r := paginate_loop fuel client jql P fields_ start in
    requests r
    = List.map (request_at jql P fields_ start)
               (seq 0 (List.length (requests r)))
    /\ issues r = flat_map (issues_served client) (requests r)
    /\ (List.length (requests r) <= fuel)%nat
    /\ (pager_ending r = OutOfFuel -> List.length (requests r) = fuel)
    /\ (pager_ending r <> OutOfFuel -> (1 <= List.length (requests r))%nat).
Proof.
  induction fuel as [| fuel IH]; intros start; cbv zeta.
  - cbn. repeat split; auto. intros Hne. congruence.
  - cbn [paginate_loop].
    set (q := {| req_jql := jql; req_startAt := start;
                 req_maxResults := P; req_fields := fields_ |}).
    assert (Hq : request_at jql P fields_ start 0 = q).
    { unfold request_at, q. f_equal. lia. }
    destruct (search_issues client q) as [page | e] eqn:Hpage.
    + destruct (yield_page page) as [ys ok] eqn:Hys.
      assert (Hserved : issues_served client q = ys).
      { unfold issues_served. rewrite Hpage, Hys. reflexivity. }
      destruct ok; cbn [negb].
      * destruct (Z.of_nat (List.length page) <? P).
        -- cbn. rewrite Hq, Hserved, app_nil_r.
           repeat split; auto; try lia; discriminate.
        -- specialize (IH (start + P)). cbv zeta in IH.
           destruct IH as (Hreq & Hiss & Hlen & Hout & Hin).
           cbn [requests issues pager_ending List.length flat_map].
           repeat split.
           ++ cbn [seq List.map]. rewrite Hq. f_equal.
              rewrite <- request_at_shift. exact Hreq.
           ++ rewrite Hserved, Hiss. reflexivity.
           ++ lia.
           ++ intros E. rewrite (Hout E). reflexivity.
           ++ intros _. lia.
      * cbn. rewrite Hq, Hserved, app_nil_r.
        repeat split; auto; try lia; discriminate.
    + assert (Hserved : issues_served client q = []).
      { unfold issues_served. rewrite Hpage. reflexivity. }
      cbn. rewrite Hq, Hserved.
      repeat split; auto; try lia; discriminate.
Qed.

(** X1. Whatever the remote answers, the requests of the pager are at the
    offsets 0, P, 2P, ... with the same query, page size and fields, one
    per unit of fuel at most, and the issues it yields are the issues those
    requests brought back, in that order: the offset moves by the page size
    asked for, not by the number of records received. *)
Theorem pager_trace (client : JIRA) (jql : str) (P : Z)
    (fields_ : option str) (fuel : nat) :
  let r := _paginate_jql_search fuel client jql P fields_ in
  requests r = page_requests jql P fields_ (List.length (requests r))
  /\ issues r = flat_map (issues_served client) (requests r)
  /\ (List.length (requests r) <= fuel)%nat
  /\ (pager_ending r = OutOfFuel -> List.length (requests r) = fuel).
Proof.
  cbv zeta. unfold _paginate_jql_search, page_requests.
  destruct (paginate_loop_trace client jql P fields_ fuel 0)
    as (Hreq & Hiss & Hlen & Hout & _).
  auto.
Qed.

Lemma paginate_nonpositive_from (client : JIRA) (jql : str) (P : Z)
    (fields_ : option str) :
  P <= 0 ->
  (forall q, exists l, search_issues client q = Success (List.map AnIssue l)) ->
  forall fuel start,
    let r := paginate_loop fuel client jql P fields_ start in
    pager_ending r = OutOfFuel /\ List.length (requests r) = fuel.
Proof.
  intros HP Hserve. induction fuel as [| fuel IH]; intros start; cbv zeta.
  - split; reflexivity.
  - cbn [paginate_loop].
    destruct (Hserve {| req_jql := jql; req_startAt := start;
                        req_maxResults := P; req_fields := fields_ |})
      as [l ->].
    rewrite yield_page_issues. cbn [negb].
    destruct (Z.ltb_spec (Z.of_nat (List.length (List.map AnIssue l))) P);
      [lia|].
    destruct (IH (start + P)) as [Hend Hlen].
    cbn [pager_ending requests List.length]. split; [exact Hend | lia].
Qed.

Lemma result_set_client_serves (base : str) (results : list Issue) :
  forall q, exists l,
    search_issues (result_set_client base (List.map AnIssue results)) q
    = Success (List.map AnIssue l).
Proof.
  intros q. cbn. unfold serve_page. rewrite skipn_map, firstn_map. eauto.
Qed.

(** X2. With a page size of zero or less, against a remote that answers
    every request with issues, the pager never returns: no page is shorter
    than the page size, so whatever the fuel the run uses all of it, one
    request per unit; with a page size of zero every request is the same
    request at offset 0. *)
Theorem paginate_nonpositive_page_size (client : JIRA) (jql : str) (P : Z)
    (fields_ : option str) (fuel : nat) :
  P <= 0 ->
  (forall q, exists l, search_issues client q = Success (List.map AnIssue l)) ->
  let r := _paginate_jql_search fuel client jql P fields_ in
  pager_ending r = OutOfFuel
  /\ List.length (requests r) = fuel
  /\ (P = 0 ->
      requests r
      = repeat {| req_jql := jql; req_startAt := 0; req_maxResults := 0;
                  req_fields := fields_ |} fuel).
Proof.
  intros HP Hserve r.
  destruct (paginate_nonpositive_from client jql P fields_ HP Hserve fuel 0)
    as [Hend Hlen].
  fold (_paginate_jql_search fuel client jql P fields_) in Hend, Hlen.
  fold r in Hend, Hlen.
  split; [exact Hend|]. split; [exact Hlen|].
  intros ->.
  destruct (paginate_loop_trace client jql 0 fields_ fuel 0) as (Hreq & _).
  fold (_paginate_jql_search fuel client jql 0 fields_) in Hreq. fold r in Hreq.
  rewrite Hreq, Hlen. clear.
  generalize 0%nat at 1. induction fuel as [| n IH]; intros k; cbn.
  - reflexivity.
  - f_equal; [| apply IH]. unfold request_at. f_equal. lia.
Qed.

Lemma paginate_nonpositive_page_size_witness :
  0 <= 0
  /\ pager_ending (_paginate_jql_search 7 Fixture.client [] 0 None)
     = OutOfFuel
  /\ List.length (requests (_paginate_jql_search 7 Fixture.client [] 0 None))
     = 7%nat.
Proof.
  split; [lia|].
  pose proof (paginate_nonpositive_page_size Fixture.client [] 0 None 7
                ltac:(lia)
                (result_set_client_serves Fixture.base_url Fixture.records))
    as W.
  cbv zeta in W. destruct W as (Hend & Hlen & _).
  split; [exact Hend | exact Hlen].
Defined.

Lemma yield_page_stops (pre : list Issue) (post : list Item) :
  yield_page (List.map AnIssue pre ++ NotIssue :: post) = (pre, false).
Proof.
  induction pre as [| i pre IH]; cbn; [reflexivity|]. rewrite IH. reflexivity.
Qed.

Section ForeignItem.
Variables (base jql : str) (fields_ : option str).
Variables (pre : list Issue) (post : list Item).
Variable p : nat.
Hypothesis p_pos : (1 <= p)%nat.

Let items := List.map AnIssue pre ++ NotIssue :: post.
Let served := result_set_client base items.
Let P := Z.of_nat p.

Lemma paginate_foreign_from (fuel : nat) :
  forall off : nat,
    (off <= List.length pre)%nat ->
    let rest := skipn off pre in
    (List.length rest / p < fuel)%nat ->
    exists reqs,
      paginate_loop fuel served jql P fields_ (Z.of_nat off)
      = {| requests := reqs; issues := rest;
           pager_ending := Raised NotAnIssue |}
      /\ List.length reqs = (List.length rest / p + 1)%nat.
Proof.
  induction fuel as [| fuel IH]; intros off Hoff rest Hfuel; [lia|].
  cbn [paginate_loop]. unfold served at 1.
  cbn [search_issues result_set_client].
  assert (Hrest : skipn off items = List.map AnIssue rest ++ NotIssue :: post).
  { unfold items, rest. rewrite skipn_app, length_map, skipn_map.
    replace (off - List.length pre)%nat with 0%nat by lia. reflexivity. }
  assert (Hpage :
    serve_page items
      {| req_jql := jql; req_startAt := Z.of_nat off;
         req_maxResults := P; req_fields := fields_ |}
    = firstn p (List.map AnIssue rest ++ NotIssue :: post)).
  { unfold serve_page, P. cbn [req_maxResults req_startAt].
    rewrite !Nat2Z.id, Hrest. reflexivity. }
  rewrite Hpage. clear Hpage.
  destruct (Nat.lt_ge_cases (List.length rest) p) as [Hlt | Hge].
  - rewrite firstn_app, length_map.
    rewrite firstn_all2 by (rewrite length_map; lia).
    destruct (p - List.length rest)%nat as [| k] eqn:Hk; [lia|].
    cbn [firstn]. rewrite yield_page_stops. cbn [negb].
    eexists. split; [reflexivity|].
    rewrite Nat.div_small by exact Hlt. reflexivity.
  - rewrite firstn_app, length_map.
    replace (p - List.length rest)%nat with 0%nat by lia.
    cbn [firstn]. rewrite app_nil_r, firstn_map, yield_page_issues.
    cbn [negb]. rewrite length_map, length_firstn.
    destruct (Z.ltb_spec (Z.of_nat (Nat.min p (List.length rest))) P)
      as [Hshort | _]; [unfold P in Hshort; lia|].
    assert (Hdiv : (List.length rest / p
                    = (List.length rest - p) / p + 1)%nat).
    { rewrite <- (Nat.div_add _ 1 p) by lia. f_equal. lia. }
    assert (Hskip : skipn (off + p) pre = skipn p rest)
      by (unfold rest; rewrite skipn_skipn; f_equal; lia).
    assert (Hlen : List.length (skipn p rest) = (List.length rest - p)%nat)
      by apply length_skipn.
    replace (Z.of_nat off + P) with (Z.of_nat (off + p)) by (unfold P; lia).
    assert (Hoff' : (off + p <= List.length pre)%nat).
    { unfold rest in Hge. rewrite length_skipn in Hge. lia. }
    specialize (IH (off + p)%nat Hoff'). cbv zeta in IH.
    rewrite Hskip, Hlen in IH. specialize (IH ltac:(lia)).
    destruct IH as (reqs & -> & Hreq).
    cbn [issues pager_ending requests].
    eexists. split.
    + f_equal. apply firstn_skipn.
    + cbn [List.length]. rewrite Hreq, Hdiv. lia.
Qed.

End ForeignItem.

(** X3. When the result set holds an item that is not an issue, the pager
    yields every issue before it, then fails with the type error, after
    the request whose page holds the item and with no request beyond it:
    nothing after the item is yielded or asked for. *)
Theorem paginate_foreign_item (base jql : str) (fields_ : option str)
    (pre : list Issue) (post : list Item) (P : Z) (fuel : nat) :
  1 <= P ->
  Z.of_nat (List.length pre) / P < Z.of_nat fuel ->
  let r := _paginate_jql_search fuel
             (result_set_client base (List.map AnIssue pre ++ NotIssue :: post))
             jql P fields_ in
  issues r = pre
  /\ pager_ending r = Raised NotAnIssue
  /\ Z.of_nat (List.length (requests r)) = Z.of_nat (List.length pre) / P + 1.
Proof.
  intros HP Hfuel r.
  assert (Hp : (1 <= Z.to_nat P)%nat) by lia.
  assert (EP : Z.of_nat (Z.to_nat P) = P) by lia.
  assert (Hdiv : Z.of_nat (List.length pre / Z.to_nat P)
                 = Z.of_nat (List.length pre) / P).
  { rewrite Nat2Z.inj_div, EP. reflexivity. }
  pose proof (paginate_foreign_from base jql fields_ pre post (Z.to_nat P) Hp
                fuel 0%nat ltac:(lia)) as Hrun.
  cbv zeta in Hrun. cbn [skipn] in Hrun. rewrite EP in Hrun.
  specialize (Hrun ltac:(lia)).
  destruct Hrun as (reqs & Hrun & Hreq).
  assert (Hr : r = {| requests := reqs; issues := pre;
                      pager_ending := Raised NotAnIssue |}) by exact Hrun.
  rewrite Hr. cbn [issues pager_ending requests].
  split; [reflexivity|]. split; [reflexivity|]. rewrite Hreq. lia.
Qed.

(** Three issues, a foreign item, one more issue, in pages of two: the
    three issues are yielded and the second request ends the run. *)
Lemma paginate_foreign_item_witness :
  1 <= 2
  /\ issues (_paginate_jql_search 2
               (result_set_client Fixture.base_url
                  (List.map AnIssue (firstn 3 Fixture.records)
                   ++ NotIssue :: [AnIssue Fixture.at_limit]))
               [] 2 None)
     = firstn 3 Fixture.records
  /\ List.length
       (requests (_paginate_jql_search 2
                    (result_set_client Fixture.base_url
                       (List.map AnIssue (firstn 3 Fixture.records)
                        ++ NotIssue :: [AnIssue Fixture.at_limit]))
                    [] 2 None))
     = 2%nat.
Proof.
  split; [lia|].
  pose proof (paginate_foreign_item Fixture.base_url [] None
                (firstn 3 Fixture.records) [AnIssue Fixture.at_limit] 2 2
                ltac:(lia) eq_refl) as W.
  cbv zeta in W. destruct W as (Hissues & _ & Hreqs).
  split; [exact Hissues|]. apply Nat2Z.inj. exact Hreqs.
Defined.

Lemma paginate_capped_run (base jql : str) (fields_ : option str)
    (results : list Issue) (cap : nat) (P : Z) (fuel : nat) :
  Z.of_nat cap < P ->
  _paginate_jql_search (S fuel) (capped_client base cap results)
    jql P fields_
  = {| requests := page_requests jql P fields_ 1;
       issues := firstn cap results;
       pager_ending := Done |}.
Proof.
  intros Hcap. unfold _paginate_jql_search. cbn [paginate_loop].
  cbn [search_issues capped_client req_maxResults req_startAt].
  change (Z.to_nat 0) with 0%nat. cbn [skipn].
  replace (Nat.min cap (Z.to_nat P)) with cap by lia.
  rewrite firstn_map, yield_page_issues. cbn [negb].
  rewrite length_map, length_firstn.
  destruct (Z.ltb_spec (Z.of_nat (Nat.min cap (List.length results))) P);
    [| lia].
  unfold page_requests, request_at. cbn [seq List.map].
  repeat f_equal.
Qed.

Lemma batch_loop_concat {A : Type} (B : Z) (docs : list A) :
  forall acc,
    let '(batches, last) := batch_loop B docs acc in
    List.concat batches ++ last = acc ++ docs.
Proof.
  induction docs as [| d rest IH]; intros acc; cbn [batch_loop].
  - cbn. rewrite app_nil_r. reflexivity.
  - destruct (_ >=? _).
    + specialize (IH []). destruct (batch_loop B rest []) as [bs last].
      cbn [List.concat]. rewrite <- !app_assoc. cbn in IH. rewrite IH.
      reflexivity.
    + specialize (IH (acc ++ [d])).
      destruct (batch_loop B rest (acc ++ [d])) as [bs last].
      rewrite IH, <- app_assoc. reflexivity.
Qed.

(** Whatever the batch size and however the inner run ends, the batches
    hold documents of the inner run, in its order; all of them when it
    returned. *)
Lemma emit_batches_prefix {A : Type} (B : Z) (inner : run A) :
  exists lost,
    yielded inner
    = List.concat (yielded (emit_batches B inner)) ++ lost
    /\ (ending inner = Done -> lost = []).
Proof.
  unfold emit_batches.
  pose proof (batch_loop_concat B (yielded inner) []) as Hcat.
  destruct (batch_loop B (yielded inner) []) as [bs last]. cbn in Hcat.
  destruct (ending inner); cbn [yielded].
  - exists []. rewrite concat_app. cbn. rewrite !app_nil_r. auto.
  - exists last. split; [auto | discriminate].
  - exists last. split; [auto | discriminate].
Qed.

(** X4. Against a remote that caps its pages below the page size asked
    for, the pager stops after its first request: the capped page is
    shorter than the page size, which the pager reads as the end of the
    result set.  Only the first [cap] records are yielded, however many
    there are; so the identifier listing, which asks for pages of 500,
    lists the first [cap] records only when the cap is under 500. *)
Theorem paginate_capped_remote (base jql : str) (fields_ : option str)
    (results : list Issue) (cap : nat) (P : Z) (fuel : nat) :
  Z.of_nat cap < P ->
  _paginate_jql_search (S fuel) (capped_client base cap results)
    jql P fields_
  = {| requests := page_requests jql P fields_ 1;
       issues := firstn cap results;
       pager_ending := Done |}
  /\ (P = _JIRA_SLIM_PAGE_SIZE ->
      forall self start end_,
        _jira_client self = Some (capped_client base cap results) ->
        List.concat
          (yielded (slim_batches
                      (fst (retrieve_all_slim_documents (S fuel)
                              start end_ self))))
        = List.map (slim_document (capped_client base cap results))
                   (firstn cap results)).
Proof.
  intros Hcap. split; [apply paginate_capped_run; exact Hcap|].
  intros -> self start end_ Hclient.
  unfold retrieve_all_slim_documents, jira_client. rewrite Hclient.
  cbn [fst slim_batches].
  rewrite (paginate_capped_run base _ (Some (lit "key")) results cap
             _JIRA_SLIM_PAGE_SIZE fuel Hcap).
  cbn [issues pager_ending].
  destruct (emit_batches_prefix _JIRA_SLIM_PAGE_SIZE
              {| yielded := List.map
                   (slim_document (capped_client base cap results))
                   (firstn cap results);
                 ending := Done |}) as (lost & Hcat & Hdone).
  cbn [yielded ending] in Hcat, Hdone. rewrite (Hdone eq_refl) in Hcat.
  rewrite app_nil_r in Hcat. symmetry. exact Hcat.
Qed.

(** Five records behind a cap of two, asked for in pages of fifty: two
    records, one request. *)
Lemma paginate_capped_remote_witness :
  2 < 50
  /\ issues (_paginate_jql_search 1
               (capped_client Fixture.base_url 2 Fixture.records) [] 50 None)
     = firstn 2 Fixture.records.
Proof.
  split; [lia|].
  destruct (paginate_capped_remote Fixture.base_url [] None Fixture.records
              2 50 0 ltac:(lia)) as [Hrun _].
  rewrite Hrun. reflexivity.
Defined.

(** ** Batches at the edges *)

Lemma batch_loop_nonpositive {A : Type} (B : Z) (docs : list A) :
  B <= 0 ->
  batch_loop B docs [] = (List.map (fun d => [d]) docs, []).
Proof.
  intros HB. induction docs as [| d rest IH]; cbn [batch_loop List.map].
  - reflexivity.
  - cbn [app List.length].
    destruct (Z.geb_spec (Z.of_nat 1) B) as [_ | Hlt]; [| lia].
    rewrite IH. reflexivity.
Qed.

Section BatchingEdges.
Context `{Collaborators}.

(** X5. With a batch size of zero or less every document fills its batch
    at once: a full load yields each document in a batch of its own and
    ends with an empty batch. *)
Theorem nonpositive_batch_size (fuel : nat) (self : JiraConnector)
    (client : JIRA) (docs : list Document) :
  _jira_client self = Some client ->
  batch_size self <= 0 ->
  fetch_jira_issues_batch fuel client (_get_jql_query self)
    _JIRA_FULL_PAGE_SIZE (comment_email_blacklist self)
    (Some (labels_to_skip self))
  = {| yielded := docs; ending := Done |} ->
  fst (load_from_state fuel self)
  = {| yielded := List.map (fun d => [d]) docs ++ [[]]; ending := Done |}.
Proof.
  intros Hclient HB Hrun. unfold load_from_state, jira_client.
  rewrite Hclient, Hrun. cbn [fst]. unfold emit_batches. cbn [yielded ending].
  rewrite batch_loop_nonpositive by exact HB. reflexivity.
Qed.

(** X6. When the transformer run ends with an exception, a full load
    yields the batches that were full by then, each of exactly the batch
    size, and ends with the same exception; the documents of the batch
    that was filling, fewer than a batch, are not yielded. *)
Theorem partial_batch_lost_on_failure (fuel : nat) (self : JiraConnector)
    (client : JIRA) (docs : list Document) (e : exn) :
  _jira_client self = Some client ->
  1 <= batch_size self ->
  fetch_jira_issues_batch fuel client (_get_jql_query self)
    _JIRA_FULL_PAGE_SIZE (comment_email_blacklist self)
    (Some (labels_to_skip self))
  = {| yielded := docs; ending := Raised e |} ->
  exists batches lost,
    fst (load_from_state fuel self)
    = {| yielded := batches; ending := Raised e |}
    /\ docs = List.concat batches ++ lost
    /\ Forall (fun b => Z.of_nat (List.length b) = batch_size self) batches
    /\ Z.of_nat (List.length batches)
       = Z.of_nat (List.length docs) / batch_size self
    /\ Z.of_nat (List.length lost)
       = Z.of_nat (List.length docs) mod batch_size self.
Proof.
  intros Hclient HB Hrun. unfold load_from_state, jira_client.
  rewrite Hclient, Hrun. cbn [fst]. unfold emit_batches. cbn [yielded ending].
  pose proof (batch_loop_spec (batch_size self) docs HB [] ltac:(cbn; lia))
    as Hspec.
  cbv zeta in Hspec. destruct (batch_loop (batch_size self) docs [])
    as [batches last].
  destruct Hspec as (Hn & Hall & Hlast & Hcat). cbn in Hn, Hlast, Hcat.
  exists batches, last. repeat split; auto.
Qed.

End BatchingEdges.

Lemma nonpositive_batch_size_witness :
  0 <= 0
  /\ List.map (@List.length Document)
       (yielded (fst (load_from_state (H := Fixture.collaborators) 1
                        (Edge.connector 0 Fixture.client))))
     = [1; 1; 1; 1; 0]%nat.
Proof.
  split; [lia|].
  rewrite (nonpositive_batch_size (H := Fixture.collaborators) 1
             (Edge.connector 0 Fixture.client) Fixture.client _
             eq_refl ltac:(cbn; lia) eq_refl).
  reflexivity.
Defined.

(** Three documents, then a record that cannot be encoded, in batches of
    two: one batch is yielded, the third document is lost. *)
Lemma partial_batch_lost_on_failure_witness :
  exists (batches : list (list Document)) (lost : list Document),
    fst (load_from_state (H := Fixture.collaborators) 1
           (Edge.connector 2 Edge.client))
    = {| yielded := batches; ending := Raised UnicodeEncodeError |}
    /\ List.map (@List.length Document) batches = [2%nat]
    /\ List.length lost = 1%nat.
Proof.
  destruct (partial_batch_lost_on_failure (H := Fixture.collaborators) 1
              (Edge.connector 2 Edge.client) Edge.client _ UnicodeEncodeError
              eq_refl ltac:(cbn; lia) eq_refl)
    as (batches & lost & Hrun & _ & _ & _ & Hlost).
  exists batches, lost. split; [exact Hrun|].
  cbv in Hrun. injection Hrun as <-. split; [reflexivity|].
  apply Nat2Z.inj. rewrite Hlost. reflexivity.
Defined.

(** ** The transformer as a whole *)

Section TransformerExtras.
Context `{Collaborators}.
Variables (client : JIRA) (blacklist : list str) (skip : option (list str)).

Lemma process_issue_survives (issue : Issue) :
  process_issue client blacklist skip issue
  = if label_filter_skips issue skip then Skip
    else match encode_utf8 (ticket_content_of issue blacklist) with
         | None => Fail UnicodeEncodeError
         | Some _ =>
             if survives blacklist skip issue
             then Emit (build_document client issue
                          (ticket_content_of issue blacklist))
             else Skip
         end.
Proof.
  unfold process_issue, survives.
  destruct (label_filter_skips issue skip); [reflexivity|].
  destruct (encode_utf8 _) as [bytes |]; [| reflexivity].
  destruct (_ >? _); reflexivity.
Qed.

(** X7. When no record that passes the label filter has content without a
    UTF-8 form, the transformer runs through all the records and its
    output is, in the order of the records, one document for each record
    that passes the label filter and fits the size, built from that record:
    records are neither reordered, nor duplicated, nor merged. *)
Theorem transform_is_filter_map (records : list Issue) :
  Forall (fun i => ~ unencodable blacklist skip i) records ->
  transform client blacklist skip records
  = (List.map (fun i => build_document client i
                          (ticket_content_of i blacklist))
              (List.filter (survives blacklist skip) records),
     None).
Proof.
  induction 1 as [| issue rest Hok _ IH]; cbn [transform List.filter List.map].
  - reflexivity.
  - rewrite process_issue_survives.
    unfold unencodable in Hok. unfold survives at 2.
    destruct (label_filter_skips issue skip) eqn:Hl; cbn [negb andb].
    + exact IH.
    + destruct (encode_utf8 (ticket_content_of issue blacklist)) as [bytes |]
        eqn:Henc; [| exfalso; apply Hok; auto].
      unfold survives at 1. rewrite Hl, Henc. cbn [negb andb].
      destruct (negb _); [rewrite IH; reflexivity | exact IH].
Qed.

Lemma transform_aborts (pre post : list Issue) (bad : Issue)
    (docs : list Document) :
  unencodable blacklist skip bad ->
  transform client blacklist skip pre = (docs, None) ->
  transform client blacklist skip (pre ++ bad :: post)
  = (docs, Some UnicodeEncodeError).
Proof.
  intros [Hl Henc]. revert docs.
  induction pre as [| issue rest IH]; intros docs; cbn [transform app].
  - intros [= <-]. unfold process_issue. rewrite Hl, Henc. reflexivity.
  - destruct (process_issue client blacklist skip issue) as [| d | e].
    + apply IH.
    + destruct (transform client blacklist skip rest) as [ds [e |]];
        intros [= <-]. rewrite (IH ds eq_refl). reflexivity.
    + discriminate.
Qed.

End TransformerExtras.

Section Abort.
Context `{Collaborators}.

(** X8. A record that passes the label filter and whose content cannot be
    encoded (a lone surrogate) is not skipped: the encoding error leaves
    the transformer.  The documents of the records before it are yielded,
    no record after it is looked at, and over a served result set the run
    of the transformer ends with that error. *)
Theorem unencodable_record_aborts (base jql : str) (blacklist : list str)
    (skip : option (list str)) (pre post : list Issue) (bad : Issue)
    (docs : list Document) (P : Z) (fuel : nat) :
  let records := pre ++ bad :: post in
  let client := result_set_client base (List.map AnIssue records) in
  unencodable blacklist skip bad ->
  transform client blacklist skip pre = (docs, None) ->
  1 <= P ->
  Z.of_nat (List.length records) / P < Z.of_nat fuel ->
  process_issue client blacklist skip bad = Fail UnicodeEncodeError
  /\ transform client blacklist skip records
     = (docs, Some UnicodeEncodeError)
  /\ fetch_jira_issues_batch fuel client jql P blacklist skip
     = {| yielded := docs; ending := Raised UnicodeEncodeError |}.
Proof.
  intros records client Hbad Hpre HP Hfuel.
  pose proof (transform_aborts client blacklist skip pre post bad docs
                Hbad Hpre) as Habort.
  fold records in Habort.
  split; [| split; [exact Habort|]].
  - destruct Hbad as [Hl Henc]. unfold process_issue.
    rewrite Hl, Henc. reflexivity.
  - pose proof (fetch_served base jql records P blacklist skip fuel HP Hfuel)
      as Hrun.
    cbv zeta in Hrun. fold client in Hrun. rewrite Habort in Hrun.
    exact Hrun.
Qed.

End Abort.

(** The five records of the fixture give four documents, the one over the
    size limit left out, in the order of the records. *)
Lemma transform_is_filter_map_witness :
  List.map id
    (fst (transform (H := Fixture.collaborators) Fixture.client [] None
            Fixture.records))
  = List.map (fun k => Fixture.base_url ++ lit "/browse/" ++ lit k)
             ["OPS-1"; "OPS-2"; "OPS-3"; "OPS-20"]%string.
Proof.
  rewrite (transform_is_filter_map (H := Fixture.collaborators)
             Fixture.client [] None Fixture.records).
  - reflexivity.
  - repeat constructor; intros [_ Henc]; discriminate Henc.
Defined.

Lemma unencodable_record_aborts_witness :
  unencodable (H := Fixture.collaborators) [] None Edge.surrogate
  /\ exists docs,
       fetch_jira_issues_batch (H := Fixture.collaborators) 1 Edge.client
         [] 50 [] None
       = {| yielded := docs; ending := Raised UnicodeEncodeError |}
       /\ List.length docs = 3%nat.
Proof.
  assert (Hbad : unencodable (H := Fixture.collaborators) [] None
                   Edge.surrogate) by (split; reflexivity).
  split; [exact Hbad|].
  pose proof (unencodable_record_aborts (H := Fixture.collaborators)
                Fixture.base_url [] [] None
                (firstn 3 Edge.records) [Fixture.plain "OPS-4"]
                Edge.surrogate _ 50 1 Hbad eq_refl ltac:(lia) eq_refl) as W.
  destruct W as (_ & _ & Hrun).
  eexists. split; [exact Hrun | reflexivity].
Defined.

(** ** Size in bytes and size in characters *)

Lemma encode_codepoint_ascii (c : codepoint) :
  (c < 128)%N -> encode_codepoint c = Some [c].
Proof.
  intros Hc. unfold encode_codepoint.
  destruct (N.ltb_spec c 0x80); [reflexivity | lia].
Qed.

Lemma encode_utf8_ascii (s : str) :
  Forall (fun c => (c < 128)%N) s -> encode_utf8 s = Some s.
Proof.
  induction 1 as [| c rest Hc _ IH]; cbn [encode_utf8]; [reflexivity|].
  rewrite (encode_codepoint_ascii c Hc), IH. reflexivity.
Qed.

Lemma encode_utf8_length (s : str) :
  forall bytes,
    encode_utf8 s = Some bytes ->
    (List.length s <= List.length bytes <= 4 * List.length s)%nat.
Proof.
  induction s as [| c rest IH]; intros bytes; cbn [encode_utf8].
  - intros [= <-]. cbn. lia.
  - destruct (encode_codepoint c) as [bs |] eqn:Hc; [| discriminate].
    destruct (encode_utf8 rest) as [more |]; [| discriminate].
    intros [= <-]. specialize (IH more eq_refl).
    apply encode_codepoint_length in Hc.
    rewrite length_app. cbn [List.length].
    destruct (c <? 128)%N; [lia|]. destruct (c <? 2048)%N; [lia|].
    destruct (c <? 65536)%N; lia.
Qed.

Section DocumentProperties.
Context `{Collaborators}.
Variables (client : JIRA) (blacklist : list str) (skip : option (list str)).

(** X9. The size limit counts bytes, between one and four per character.
    A record that passes the label filter and whose content can be encoded
    is always skipped when the content has more characters than the limit,
    always emitted when four times its length fits the limit, and decided
    by its length alone when the content is plain ASCII, which encodes to
    itself. *)
Theorem size_filter_by_length (issue : Issue) (bytes : list N) :
  label_filter_skips issue skip = false ->
  encode_utf8 (ticket_content_of issue blacklist) = Some bytes ->
  let content := ticket_content_of issue blacklist in
  let decision := process_issue client blacklist skip issue in
  (JIRA_CONNECTOR_MAX_TICKET_SIZE < Z.of_nat (List.length content) ->
   decision = Skip)
  /\ (4 * Z.of_nat (List.length content) <= JIRA_CONNECTOR_MAX_TICKET_SIZE ->
      decision = Emit (build_document client issue content))
  /\ (Forall (fun c => (c < 128)%N) content ->
      bytes = content
      /\ decision
         = if Z.of_nat (List.length content) >? JIRA_CONNECTOR_MAX_TICKET_SIZE
           then Skip
           else Emit (build_document client issue content)).
Proof.
  intros Hl Henc content decision.
  pose proof (encode_utf8_length _ _ Henc) as Hlen. fold content in Hlen.
  unfold decision, process_issue. rewrite Hl. fold content.
  fold content in Henc. rewrite Henc.
  split; [| split].
  - intros Hbig.
    destruct (Z.gtb_spec (Z.of_nat (List.length bytes))
                JIRA_CONNECTOR_MAX_TICKET_SIZE); [reflexivity | lia].
  - intros Hsmall.
    destruct (Z.gtb_spec (Z.of_nat (List.length bytes))
                JIRA_CONNECTOR_MAX_TICKET_SIZE); [lia | reflexivity].
  - intros Hascii. apply encode_utf8_ascii in Hascii.
    assert (bytes = content) as -> by congruence. split; reflexivity.
Qed.

(** The identifier of a document of the output is the deep link of one of
    the records the loop went through. *)
Lemma transform_ids (records : list Issue) (doc : Document) :
  In doc (fst (transform client blacklist skip records)) ->
  exists issue,
    In issue records
    /\ id doc = client_info client ++ lit "/browse/" ++ key issue.
Proof.
  intros Hin.
  destruct (transform client blacklist skip records) as [docs e] eqn:Hrun.
  destruct (transform_In client blacklist skip records _ _ _ Hrun Hin)
    as (issue & Hissue & Hemit).
  apply process_issue_Emit_inv in Hemit. destruct Hemit as [_ ->].
  exists issue. split; [exact Hissue | reflexivity].
Qed.

Lemma transform_ids_NoDup (records : list Issue) :
  NoDup (List.map key records) ->
  NoDup (List.map id (fst (transform client blacklist skip records))).
Proof.
  induction records as [| issue rest IH]; cbn [transform List.map fst].
  - intros _. constructor.
  - intros Hnd. inversion Hnd as [| k ks Hfresh Hrest]; subst.
    specialize (IH Hrest).
    destruct (process_issue client blacklist skip issue) as [| d | e'] eqn:Hp.
    + exact IH.
    + pose proof (transform_ids rest) as Hids.
      destruct (transform client blacklist skip rest) as [docs e''].
      cbn [fst List.map] in *. constructor; [| exact IH].
      intros Hin. apply in_map_iff in Hin.
      destruct Hin as (d' & Hid & Hd').
      destruct (Hids d' Hd') as (issue' & Hissue' & Hid').
      apply process_issue_Emit_inv in Hp. destruct Hp as [_ ->].
      cbn [id build_document] in Hid. rewrite Hid' in Hid.
      apply app_inv_head in Hid. apply app_inv_head in Hid.
      apply Hfresh. rewrite <- Hid. apply in_map. exact Hissue'.
    + constructor.
Qed.

(** X10. The identifier of a document is the client's base URL, [/browse/]
    and the record key: for one client two documents have the same
    identifier exactly when their records have the same key, whatever
    their content; and when the records of a run have distinct keys, the
    documents the loop puts out have distinct identifiers, each the deep
    link of one of the records. *)
Theorem document_identity (i1 i2 : Issue) (c1 c2 : str)
    (records : list Issue) :
  NoDup (List.map key records) ->
  let docs := fst (transform client blacklist skip records) in
  (id (build_document client i1 c1) = id (build_document client i2 c2)
   <-> key i1 = key i2)
  /\ NoDup (List.map id docs)
  /\ (forall doc, In doc docs ->
        exists issue,
          In issue records
          /\ id doc = client_info client ++ lit "/browse/" ++ key issue).
Proof.
  intros Hnd docs. split; [split | split].
  - cbn [id build_document]. intros Heq.
    apply app_inv_head in Heq. apply app_inv_head in Heq. exact Heq.
  - cbn [id build_document]. intros ->. reflexivity.
  - apply transform_ids_NoDup, Hnd.
  - intros doc. apply transform_ids.
Qed.

(** The persons of a record, listed creator first. *)
Lemma people_of_spec (issue : Issue) :
  let c := best_effort_get_field_from_issue issue creator in
  let a := best_effort_get_field_from_issue issue assignee in
  NoDup (people_of issue)
  /\ (List.length (people_of issue) <= 2)%nat
  /\ (forall info,
        In info (people_of issue) <-> resolves_to c info \/ resolves_to a info).
Proof.
  cbv zeta. unfold people_of, add_person, resolves_to.
  destruct (best_effort_basic_expert_info
              (best_effort_get_field_from_issue issue creator))
    as [[p |] | e1];
    destruct (best_effort_basic_expert_info
                (best_effort_get_field_from_issue issue assignee))
      as [[q |] | e2];
    cbn [set_add empty_set];
    try (destruct (BasicExpertInfo_eq_dec q p) as [-> | Hne]);
    repeat split;
    try (repeat constructor; cbn; intuition congruence);
    try (cbn; lia);
    try (cbn; intuition congruence).
Qed.

(** X11. The owners of a document are the persons the creator and the
    assignee resolve to, each once: one or two persons without repetition
    (one when both fields resolve to the same person), and no list at all,
    rather than an empty one, when neither field resolves. *)
Theorem owners_are_a_set (issue : Issue) (content : str) :
  let owners := primary_owners (build_document client issue content) in
  let c := best_effort_get_field_from_issue issue creator in
  let a := best_effort_get_field_from_issue issue assignee in
  match owners with
  | None => forall info, ~ resolves_to c info /\ ~ resolves_to a info
  | Some l =>
      NoDup l
      /\ (1 <= List.length l <= 2)%nat
      /\ (forall info, In info l <-> resolves_to c info \/ resolves_to a info)
  end.
Proof.
  cbv zeta. cbn [primary_owners build_document].
  destruct (people_of_spec issue) as (Hnd & Hlen & Hin).
  pose proof (list_of_set_elements (people_of issue)) as Hperm.
  destruct (list_of_set (people_of issue)) as [| x l] eqn:Hl;
    cbn [list_or_None].
  - apply Permutation_sym, Permutation_nil in Hperm.
    rewrite Hperm in Hin. intros info.
    split; intros Hr; apply (proj2 (Hin info)); auto.
  - split; [eapply Permutation_NoDup; eassumption|].
    split.
    + apply Permutation_length in Hperm. cbn [List.length] in Hperm |- *.
      lia.
    + intros info. rewrite <- (Hin info). split.
      * apply Permutation_in, Permutation_sym, Hperm.
      * apply Permutation_in, Hperm.
Qed.

End DocumentProperties.

(** The five records of the fixture have five keys, and the four documents
    the loop makes of them four identifiers. *)
Lemma document_identity_witness :
  NoDup (List.map key Fixture.records)
  /\ NoDup (List.map id
              (fst (transform (H := Fixture.collaborators) Fixture.client []
                      (Some [lit "secret"]) Fixture.records)))
  /\ List.length
       (fst (transform (H := Fixture.collaborators) Fixture.client []
               (Some [lit "secret"]) Fixture.records))
     = 4%nat.
Proof.
  assert (Hnd : NoDup (List.map key Fixture.records)).
  { vm_compute. repeat constructor; cbn; intuition discriminate. }
  split; [exact Hnd|].
  pose proof (document_identity (H := Fixture.collaborators) Fixture.client
                [] (Some [lit "secret"]) Fixture.at_limit Fixture.over_limit
                [] [] Fixture.records Hnd) as W.
  cbv zeta in W. destruct W as (_ & Hids & _).
  split; [exact Hids | reflexivity].
Defined.

(** X12. The metadata of a document has at most the four keys [priority],
    [status], [resolution] and [label], each at most once: a named field is
    there with its display name exactly when the record has it, the labels
    are there as a list exactly when the record has at least one, and a
    field the record lacks leaves no entry. *)
Theorem metadata_entries (issue : Issue) :
  let md := metadata_of issue in
  NoDup (List.map fst md)
  /\ forall k v,
       In (k, v) md
       <-> (exists n, priority (fields issue) = Some n
                      /\ k = lit "priority" /\ v = MStr (name n))
           \/ (exists n, status (fields issue) = Some n
                         /\ k = lit "status" /\ v = MStr (name n))
           \/ (exists n, resolution (fields issue) = Some n
                         /\ k = lit "resolution" /\ v = MStr (name n))
           \/ (labels (fields issue) <> []
               /\ k = lit "label" /\ v = MList (labels (fields issue))).
Proof.
  cbv zeta. unfold metadata_of, best_effort_get_field_from_issue, named_entry.
  destruct (priority (fields issue)) as [p |];
    destruct (status (fields issue)) as [s |];
    destruct (resolution (fields issue)) as [r |];
    destruct (labels (fields issue)) as [| l ls];
    (split;
     [ vm_compute; repeat constructor; cbn; intuition discriminate
     | intros k v; cbn [app In]; split;
       [ intros Hin;
         repeat (destruct Hin as [[= <- <-] | Hin]);
         try contradiction;
         eauto 10 using nil_cons;
         try (right; right; right; repeat split; discriminate)
       | intros [(n & [= <-] & -> & ->) | [(n & [= <-] & -> & ->)
                 | [(n & [= <-] & -> & ->) | (Hne & -> & ->)]]];
         try congruence; auto 10 ] ]).
Qed.

(** Twenty ASCII characters under a limit of 20 bytes: the length decides,
    and the record is emitted. *)
Lemma size_filter_by_length_witness :
  process_issue (H := Fixture.collaborators) Fixture.client [] None
    Fixture.at_limit
  = Emit (build_document (H := Fixture.collaborators) Fixture.client
            Fixture.at_limit
            (ticket_content_of (H := Fixture.collaborators)
               Fixture.at_limit [])).
Proof.
  pose proof (size_filter_by_length (H := Fixture.collaborators)
                Fixture.client [] None Fixture.at_limit _ eq_refl eq_refl)
    as W.
  cbv zeta in W. destruct W as (_ & _ & Hascii).
  assert (Hall : Forall (fun c => (c < 128)%N)
                   (ticket_content_of (H := Fixture.collaborators)
                      Fixture.at_limit [])).
  { vm_compute. repeat constructor. }
  destruct (Hascii Hall) as [_ Hdecision]. exact Hdecision.
Defined.

(** ** The time window and the minute *)

(** The fields [fromtimestamp] renders, from the minute count [t / 60]. *)
Lemma minute_fields (t : Z) :
  t / 86400 = t / 60 / 1440
  /\ t mod 86400 / 3600 = (t / 60) mod 1440 / 60
  /\ t mod 86400 mod 3600 / 60 = (t / 60) mod 60.
Proof.
  repeat split; Z.to_euclidean_division_equations; lia.
Qed.

Lemma strftime_minute_of_minute (t1 t2 : Z) :
  t1 / 60 = t2 / 60 ->
  option_map strftime_minute (fromtimestamp t1)
  = option_map strftime_minute (fromtimestamp t2).
Proof.
  intros Hq. unfold fromtimestamp. cbv zeta.
  destruct (minute_fields t1) as (D1 & H1 & M1).
  destruct (minute_fields t2) as (D2 & H2 & M2).
  rewrite D1, D2, Hq.
  destruct ((1 <=? _) && (_ <=? _)); [| reflexivity].
  destruct (_ord2ymd _) as [[y m] d]. cbn [option_map].
  unfold strftime_minute. cbn [year month day hour minute].
  rewrite H1, H2, M1, M2, Hq. reflexivity.
Qed.

Lemma digit_inj (a b : Z) : digit a = digit b -> a mod 10 = b mod 10.
Proof.
  unfold digit. intros Heq.
  apply Z2N.inj in Heq; Z.to_euclidean_division_equations; lia.
Qed.

Lemma digit_is_digit (d : Z) : is_digit (digit d).
Proof.
  unfold is_digit, digit.
  pose proof (Z.mod_pos_bound d 10 ltac:(lia)). lia.
Qed.

Lemma digits_exclude (l : str) (c : codepoint) :
  Forall is_digit l -> (c < 48)%N -> ~ In c l.
Proof.
  intros Hall Hc Hin. rewrite Forall_forall in Hall.
  specialize (Hall c Hin). unfold is_digit in Hall. lia.
Qed.

Lemma pad2_digits (n : Z) : Forall is_digit (pad2 n).
Proof. unfold pad2. repeat constructor; apply digit_is_digit. Qed.

Lemma year_text_digits (y : Z) : Forall is_digit (year_text y).
Proof.
  unfold year_text, pad4.
  destruct (y <? 10); [| destruct (y <? 100); [| destruct (y <? 1000)]];
    repeat constructor; apply digit_is_digit.
Qed.

Lemma pad2_inj (a b : Z) :
  0 <= a < 100 -> 0 <= b < 100 -> pad2 a = pad2 b -> a = b.
Proof.
  unfold pad2. intros Ha Hb [= H1 H0].
  apply digit_inj in H1, H0. Z.to_euclidean_division_equations; lia.
Qed.

(** The text of a year tells the year, padded or not. *)
Lemma year_text_inj (a b : Z) :
  1 <= a <= 9999 -> 1 <= b <= 9999 -> year_text a = year_text b -> a = b.
Proof.
  intros Ha Hb. unfold year_text, pad4.
  destruct (Z.ltb_spec a 10); [| destruct (Z.ltb_spec a 100);
                                  [| destruct (Z.ltb_spec a 1000)]];
    (destruct (Z.ltb_spec b 10); [| destruct (Z.ltb_spec b 100);
                                     [| destruct (Z.ltb_spec b 1000)]]);
    intros Heq; try discriminate Heq;
    injection Heq; intros;
    repeat match goal with
           | E : digit _ = digit _ |- _ => apply digit_inj in E
           end;
    Z.to_euclidean_division_equations; lia.
Qed.

Lemma days_in_month_le (y m : Z) : days_in_month y m <= 31.
Proof.
  unfold days_in_month.
  destruct (Z.eqb_spec m 2) as [-> | Hm]; cbn [andb].
  - destruct (_is_leap y); cbn; lia.
  - cbn [b2z]. unfold _DAYS_IN_MONTH.
    repeat match goal with
           | |- context [match ?x with _ => _ end] => destruct x
           end; lia.
Qed.

(** Two texts that stop at the same mark, which neither holds before. *)
Lemma split_at_mark {A : Type} (c : A) (a b x y : list A) :
  ~ In c a -> ~ In c b -> a ++ c :: x = b ++ c :: y -> a = b /\ x = y.
Proof.
  revert b. induction a as [| h a IH]; intros [| k b] Ha Hb Heq;
    cbn [app] in Heq.
  - injection Heq as <-. auto.
  - injection Heq as -> _. exfalso. apply Hb. left. reflexivity.
  - injection Heq as -> _. exfalso. apply Ha. left. reflexivity.
  - injection Heq as -> Heq.
    destruct (IH b) as [-> ->]; auto.
    + intros Hin. apply Ha. right. exact Hin.
    + intros Hin. apply Hb. right. exact Hin.
Qed.

(** A text is the rendering of one minute only. *)
Lemma minute_rendering_unique (t1 t2 : Z) (s : str) :
  minute_rendering_of t1 s -> minute_rendering_of t2 s -> t1 / 60 = t2 / 60.
Proof.
  intros (y & m & d & hh & mm & (Hy & Hm & Hd & Hh & Hmm) & -> & Hin)
         (y' & m' & d' & hh' & mm' & (Hy' & Hm' & Hd' & Hh' & Hmm') & Heq
          & Hin').
  pose proof (days_in_month_le y m) as Hdm.
  pose proof (days_in_month_le y' m') as Hdm'.
  change (lit "-") with [45%N] in Heq. change (lit " ") with [32%N] in Heq.
  change (lit ":") with [58%N] in Heq.
  cbn [app] in Heq.
  apply (split_at_mark 45%N) in Heq;
    [| apply digits_exclude; [apply year_text_digits | reflexivity] ..].
  destruct Heq as [HY Heq].
  unfold pad2 in Heq. cbn [app] in Heq.
  injection Heq as M1 M0 D1 D0 T1 T0 N1 N0.
  assert (y = y') as <- by (apply year_text_inj; assumption).
  assert (m = m') as <-.
  { apply pad2_inj; try lia. unfold pad2. congruence. }
  assert (d = d') as <-.
  { apply pad2_inj; try lia. unfold pad2. congruence. }
  assert (hh = hh') as <-.
  { apply pad2_inj; try lia. unfold pad2. congruence. }
  assert (mm = mm') as <-.
  { apply pad2_inj; try lia. unfold pad2. congruence. }
  cbv zeta in Hin, Hin'.
  set (k := (_ymd2ord y m d - EPOCH_ORDINAL) * 1440 + hh * 60 + mm).
  assert (E1 : t1 / 60 = k).
  { symmetry. apply Z.div_unique with (r := t1 - 60 * k); unfold k; lia. }
  assert (E2 : t2 / 60 = k).
  { symmetry. apply Z.div_unique with (r := t2 - 60 * k); unfold k; lia. }
  congruence.
Qed.

(** No rendering holds the quote that closes it in the query. *)
Lemma strftime_minute_no_quote (dt : datetime) :
  ~ In 39%N (strftime_minute dt).
Proof.
  unfold strftime_minute. rewrite !in_app_iff.
  change (lit "-") with [45%N]. change (lit " ") with [32%N].
  change (lit ":") with [58%N].
  pose proof (digits_exclude _ 39%N (year_text_digits (year dt)) eq_refl).
  pose proof (digits_exclude _ 39%N (pad2_digits (month dt)) eq_refl).
  pose proof (digits_exclude _ 39%N (pad2_digits (day dt)) eq_refl).
  pose proof (digits_exclude _ 39%N (pad2_digits (hour dt)) eq_refl).
  pose proof (digits_exclude _ 39%N (pad2_digits (minute dt)) eq_refl).
  cbn [In]. intuition discriminate.
Qed.

(** Over bounds that [datetime] can hold, two polls build the same query
    exactly when their bounds fall in the same minutes. *)
Lemma poll_jql_same_minutes (self : JiraConnector)
    (start1 end1 start2 end2 : SecondsSinceUnixEpoch) (s1 e1 s2 e2 : Z) :
  whole_seconds start1 = Some s1 -> whole_seconds end1 = Some e1 ->
  whole_seconds start2 = Some s2 -> whole_seconds end2 = Some e2 ->
  representable s1 -> representable e1 ->
  representable s2 -> representable e2 ->
  (poll_jql self start1 end1 = poll_jql self start2 end2
   <-> s1 / 60 = s2 / 60 /\ e1 / 60 = e2 / 60).
Proof.
  intros W1 V1 W2 V2 Hs1 He1 Hs2 He2.
  destruct (poll_jql_rendering self start1 end1 s1 e1 W1 V1 Hs1 He1)
    as (a1 & b1 & A1 & B1 & R1 & Q1 & J1).
  destruct (poll_jql_rendering self start2 end2 s2 e2 W2 V2 Hs2 He2)
    as (a2 & b2 & A2 & B2 & R2 & Q2 & J2).
  rewrite J1, J2. split.
  - intros Heq.
    apply (f_equal (fun r => match r with Ok q => q | Raise _ => [] end))
      in Heq.
    cbv beta iota in Heq.
    apply app_inv_head in Heq. apply app_inv_head in Heq.
    change (lit "' AND updated <= '")
      with (39%N :: lit " AND updated <= '") in Heq.
    cbn [app] in Heq.
    apply (split_at_mark 39%N) in Heq;
      [| apply strftime_minute_no_quote ..].
    destruct Heq as [HS Heq].
    apply app_inv_head in Heq. apply app_inv_tail in Heq.
    rewrite HS in R1. rewrite Heq in Q1.
    split; eapply minute_rendering_unique; eassumption.
  - intros [Hs He].
    pose proof (strftime_minute_of_minute s1 s2 Hs) as ES.
    pose proof (strftime_minute_of_minute e1 e2 He) as EE.
    rewrite A1, A2 in ES. rewrite B1, B2 in EE. cbn [option_map] in ES, EE.
    assert (HS : strftime_minute a1 = strftime_minute a2) by congruence.
    assert (HE : strftime_minute b1 = strftime_minute b2) by congruence.
    rewrite HS, HE. reflexivity.
Qed.

Lemma poll_jql_with_client (self : JiraConnector) (client : JIRA)
    (start end_ : SecondsSinceUnixEpoch) :
  poll_jql (with_client self client) start end_ = poll_jql self start end_.
Proof. reflexivity. Qed.

Section PollProbe.
Context `{Collaborators}.

(** A remote that answers one query with an empty page: the search with
    that query returns at once, with any other it fails. *)
Lemma probe_answers (fuel : nat) (base jql : str) (blacklist : list str)
    (skip : option (list str)) :
  fetch_jira_issues_batch (S fuel)
    (answering_only jql (result_set_client base [])) jql
    _JIRA_FULL_PAGE_SIZE blacklist skip
  = {| yielded := []; ending := Done |}.
Proof.
  unfold fetch_jira_issues_batch, _paginate_jql_search.
  cbn [paginate_loop answering_only search_issues req_jql result_set_client].
  rewrite (proj2 (str_eqb_eq jql jql) eq_refl).
  unfold serve_page. rewrite skipn_nil, firstn_nil. reflexivity.
Qed.

Lemma probe_refuses (fuel : nat) (base jql other : str)
    (blacklist : list str) (skip : option (list str)) :
  other <> jql ->
  fetch_jira_issues_batch (S fuel)
    (answering_only jql (result_set_client base [])) other
    _JIRA_FULL_PAGE_SIZE blacklist skip
  = {| yielded := []; ending := Raised (RemoteError UNKNOWN_QUERY) |}.
Proof.
  intros Hne. unfold fetch_jira_issues_batch, _paginate_jql_search.
  cbn [paginate_loop answering_only search_issues req_jql result_set_client].
  destruct (str_eqb other jql) eqn:Heq;
    [apply str_eqb_eq in Heq; contradiction | reflexivity].
Qed.

(** X13. Each bound of a poll is rounded to the microsecond, and of the
    whole seconds that gives, only the minute reaches the query.  Over
    bounds in the years 1 to 9999, two incremental polls of a connector
    build the same query exactly when their start bounds fall in the same
    UTC minute and their end bounds fall in the same UTC minute; in the
    same minutes the two polls are the same run, and in different minutes
    some remote tells them apart. *)
Theorem poll_query_identifies_minutes (fuel : nat) (self : JiraConnector)
    (start1 end1 start2 end2 : SecondsSinceUnixEpoch) (s1 e1 s2 e2 : Z) :
  whole_seconds start1 = Some s1 -> whole_seconds end1 = Some e1 ->
  whole_seconds start2 = Some s2 -> whole_seconds end2 = Some e2 ->
  representable s1 -> representable e1 ->
  representable s2 -> representable e2 ->
  let same_minutes := s1 / 60 = s2 / 60 /\ e1 / 60 = e2 / 60 in
  (poll_jql self start1 end1 = poll_jql self start2 end2 <-> same_minutes)
  /\ (same_minutes ->
      poll_source fuel start1 end1 self = poll_source fuel start2 end2 self)
  /\ ((0 < fuel)%nat ->
      (forall client,
         fst (poll_source fuel start1 end1 (with_client self client))
         = fst (poll_source fuel start2 end2 (with_client self client))) ->
      same_minutes).
Proof.
  intros W1 V1 W2 V2 Hs1 He1 Hs2 He2 same_minutes.
  pose proof (poll_jql_same_minutes self start1 end1 start2 end2
                s1 e1 s2 e2 W1 V1 W2 V2 Hs1 He1 Hs2 He2) as Hiff.
  fold same_minutes in Hiff.
  split; [exact Hiff|]. split.
  - intros Hsame. unfold poll_source.
    rewrite (proj2 Hiff Hsame). reflexivity.
  - intros Hfuel Hall. destruct fuel as [| fuel]; [lia|].
    destruct (poll_jql_rendering self start1 end1 s1 e1 W1 V1 Hs1 He1)
      as (a1 & b1 & _ & _ & _ & _ & J1).
    destruct (poll_jql_rendering self start2 end2 s2 e2 W2 V2 Hs2 He2)
      as (a2 & b2 & _ & _ & _ & _ & J2).
    remember (scope_prefix (configured_project self)
              ++ lit "updated >= '" ++ strftime_minute a1
              ++ lit "' AND updated <= '" ++ strftime_minute b1 ++ lit "'")
      as jql1 eqn:E1.
    remember (scope_prefix (configured_project self)
              ++ lit "updated >= '" ++ strftime_minute a2
              ++ lit "' AND updated <= '" ++ strftime_minute b2 ++ lit "'")
      as jql2 eqn:E2.
    destruct (str_eq_dec jql2 jql1) as [Heq | Hne].
    + apply Hiff. rewrite J1, J2, Heq. reflexivity.
    + exfalso.
      specialize (Hall (answering_only jql1 (result_set_client [] []))).
      rewrite (poll_source_runs_query (S fuel) _ start1 end1 jql1 _
                 (eq_trans (poll_jql_with_client _ _ _ _) J1) eq_refl)
        in Hall.
      rewrite (poll_source_runs_query (S fuel) _ start2 end2 jql2 _
                 (eq_trans (poll_jql_with_client _ _ _ _) J2) eq_refl)
        in Hall.
      cbn [fst] in Hall.
      rewrite probe_answers, (probe_refuses _ _ _ _ _ _ Hne) in Hall.
      unfold emit_batches in Hall. cbn [batch_loop yielded ending] in Hall.
      discriminate Hall.
Qed.

End PollProbe.

(** A float less than a third of a microsecond under the first minute is
    rounded to it: its poll is the poll from second 60, with any end bound
    of the same minute, and builds another query than the poll from
    second 59. *)
Lemma poll_query_identifies_minutes_witness :
  PrimFloat.ltb BinaryFloat.just_under_sixty BinaryFloat.sixty = true
  /\ poll_source (H := Fixture.collaborators) 1
       (FloatSeconds BinaryFloat.just_under_sixty) 3600
       (Fixture.connector None (Some Fixture.client))
     = poll_source (H := Fixture.collaborators) 1
         (FloatSeconds BinaryFloat.sixty) 3639
         (Fixture.connector None (Some Fixture.client))
  /\ poll_jql (Fixture.connector None (Some Fixture.client))
       (FloatSeconds BinaryFloat.just_under_sixty) 3600
     <> poll_jql (Fixture.connector None (Some Fixture.client))
          (FloatSeconds BinaryFloat.fifty_nine) 3600.
Proof.
  assert (R : forall t, 0 <= t <= 3639 -> representable t)
    by (unfold representable; lia).
  split; [reflexivity|]. split.
  - pose proof (poll_query_identifies_minutes (H := Fixture.collaborators) 1
                  (Fixture.connector None (Some Fixture.client))
                  (FloatSeconds BinaryFloat.just_under_sixty) 3600
                  (FloatSeconds BinaryFloat.sixty) 3639
                  60 3600 60 3639 eq_refl eq_refl eq_refl eq_refl
                  (R 60 ltac:(lia)) (R 3600 ltac:(lia))
                  (R 60 ltac:(lia)) (R 3639 ltac:(lia))) as W.
    cbv zeta in W. destruct W as (_ & Hsame & _).
    apply Hsame. split; reflexivity.
  - intros Heq.
    pose proof (poll_query_identifies_minutes (H := Fixture.collaborators) 1
                  (Fixture.connector None (Some Fixture.client))
                  (FloatSeconds BinaryFloat.just_under_sixty) 3600
                  (FloatSeconds BinaryFloat.fifty_nine) 3600
                  60 3600 59 3600 eq_refl eq_refl eq_refl eq_refl
                  (R 60 ltac:(lia)) (R 3600 ltac:(lia))
                  (R 59 ltac:(lia)) (R 3600 ltac:(lia))) as W.
    cbv zeta in W. destruct W as (Hiff & _).
    apply Hiff in Heq. destruct Heq as [Hs _].
    vm_compute in Hs. discriminate Hs.
Defined.

(** ** Construction and configuration *)

Lemma lstrip_char_spec (ch : codepoint) (s : str) :
  exists n,
    s = repeat ch n ++ lstrip_char ch s
    /\ hd_error (lstrip_char ch s) <> Some ch.
Proof.
  induction s as [| c rest (n & Hn & Hhd)]; cbn [lstrip_char].
  - exists 0%nat. split; [reflexivity | discriminate].
  - destruct (N.eqb_spec c ch) as [-> | Hne].
    + exists (S n). cbn [repeat app]. split; [f_equal; exact Hn | exact Hhd].
    + exists 0%nat. split; [reflexivity|]. cbn. congruence.
Qed.

Lemma rstrip_slash_spec (s : str) :
  (exists n, s = rstrip_slash s ++ repeat 47%N n)
  /\ ~ ends_with (lit "/") (rstrip_slash s).
Proof.
  unfold rstrip_slash.
  destruct (lstrip_char_spec 47%N (rev s)) as (n & Hn & Hhd). split.
  - exists n. apply (f_equal (@rev codepoint)) in Hn.
    rewrite rev_involutive, rev_app_distr, rev_repeat in Hn. exact Hn.
  - intros [front Hfront]. apply (f_equal (@rev codepoint)) in Hfront.
    rewrite rev_involutive, rev_app_distr in Hfront.
    rewrite Hfront in Hhd. apply Hhd. reflexivity.
Qed.

Lemma lstrip_spec (s : str) :
  exists pre,
    s = pre ++ lstrip s
    /\ forallb isspace pre = true
    /\ (forall c, hd_error (lstrip s) = Some c -> isspace c = false).
Proof.
  induction s as [| c rest (pre & Hpre & Hsp & Hhd)]; cbn [lstrip].
  - exists []. repeat split; auto. discriminate.
  - destruct (isspace c) eqn:Hc.
    + exists (c :: pre). cbn [app forallb]. rewrite Hc, Hsp.
      repeat split; auto. f_equal. exact Hpre.
    + exists []. repeat split; auto. intros c' [= <-]. exact Hc.
Qed.

Lemma strip_spec (raw : str) : trimmed_of raw (strip raw).
Proof.
  unfold trimmed_of, strip.
  destruct (lstrip_spec raw) as (pre & Hpre & Hsp & Hhd).
  destruct (lstrip_spec (rev (lstrip raw))) as (tail & Htail & Htsp & Hthd).
  set (core := lstrip (rev (lstrip raw))) in *.
  assert (Hu : lstrip raw = rev core ++ rev tail).
  { apply (f_equal (@rev codepoint)) in Htail.
    rewrite rev_involutive, rev_app_distr in Htail. exact Htail. }
  exists pre, (rev tail). repeat split.
  - rewrite Hpre at 1. rewrite Hu. reflexivity.
  - exact Hsp.
  - rewrite forallb_forall in *. intros c Hc. apply Htsp, in_rev, Hc.
  - intros c Hc. apply Hhd. rewrite Hu.
    destruct (rev core) as [| c' r]; [discriminate|]. exact Hc.
  - intros c. rewrite rev_involutive. apply Hthd.
Qed.

(** X15. The blacklist the connector hands to the comment extraction has
    one entry for each address it was configured with, in the same order,
    and each entry is the configured address without the whitespace at its
    two ends: what is cut off is whitespace only, and what is left neither
    starts nor ends with whitespace. *)
Theorem comment_email_blacklist_trimmed (self : JiraConnector) :
  Forall2 trimmed_of (_comment_email_blacklist self)
          (comment_email_blacklist self).
Proof.
  unfold comment_email_blacklist.
  induction (_comment_email_blacklist self) as [| raw rest IH]; cbn [List.map].
  - constructor.
  - constructor; [apply strip_spec | exact IH].
Qed.

Section ConnectorExtras.
Context `{Collaborators}.

(** X14. A connector as constructed: its base URL is the given URL with
    every trailing slash removed and nothing else, so it never ends with a
    slash; its labels to skip are the given labels (the configured default
    when none are given) without repetition; and it has no client, so a
    full load on it fails with the missing-credential error. *)
Theorem new_connector_normalised (jira_base_url : str)
    (project_key : option str) (blacklist : option (list str))
    (size : option Z) (skip : option (list str)) :
  let self := new_connector jira_base_url project_key blacklist size skip in
  let given := match skip with
               | Some l => l
               | None => JIRA_CONNECTOR_LABELS_TO_SKIP
               end in
  (exists n, jira_base_url = jira_base self ++ repeat 47%N n)
  /\ ~ ends_with (lit "/") (jira_base self)
  /\ NoDup (labels_to_skip self)
  /\ (forall l, In l (labels_to_skip self) <-> In l given)
  /\ (forall fuel,
        fst (load_from_state fuel self)
        = raising (ConnectorMissingCredentialError (lit "Jira"))).
Proof.
  cbv zeta. cbn [new_connector jira_base labels_to_skip].
  destruct (rstrip_slash_spec jira_base_url) as [Hbase Hend].
  split; [exact Hbase|]. split; [exact Hend|].
  split; [apply NoDup_nodup|]. split; [intros l; apply nodup_In|].
  intros fuel. reflexivity.
Qed.


(** X17. Over a served result set, with fuel for the pages of a full load,
    the identifier listing lists every record, filtered or not, in the
    order of the result set, and every document a full load yields has its
    identifier in that listing: the listing covers the load, also when the
    load skips records or stops on an error. *)
Theorem slim_listing_covers_full_load (base : str) (results : list Issue)
    (self : JiraConnector) (fuel : nat)
    (start end_ : option SecondsSinceUnixEpoch) :
  _jira_client self
  = Some (result_set_client base (List.map AnIssue results)) ->
  Z.of_nat (List.length results) / _JIRA_FULL_PAGE_SIZE < Z.of_nat fuel ->
  let loaded := List.concat (yielded (fst (load_from_state fuel self))) in
  let listed :=
    List.concat
      (yielded (slim_batches
                  (fst (retrieve_all_slim_documents fuel start end_ self)))) in
  List.map slim_id listed
  = List.map (fun i => build_jira_url
                         (result_set_client base (List.map AnIssue results))
                         (key i)) results
  /\ incl (List.map id loaded) (List.map slim_id listed).
Proof.
  intros Hclient Hfuel loaded listed.
  set (client := result_set_client base (List.map AnIssue results)) in *.
  assert (Hfuel' : Z.of_nat (List.length results) / 500 < Z.of_nat fuel).
  { unfold _JIRA_FULL_PAGE_SIZE in Hfuel.
    Z.to_euclidean_division_equations; lia. }
  assert (Hlisted : listed = List.map (slim_document client) results).
  { unfold listed, retrieve_all_slim_documents, jira_client.
    rewrite Hclient. cbn [fst slim_batches]. unfold client.
    rewrite (paginate_served base _ (Some (lit "key")) results 500 fuel
               ltac:(lia) Hfuel').
    cbn [issues pager_ending].
    destruct (emit_batches_prefix _JIRA_SLIM_PAGE_SIZE
                {| yielded := List.map
                     (slim_document
                        (result_set_client base (List.map AnIssue results)))
                     results;
                   ending := Done |}) as (lost & Hcat & Hdone).
    cbn [yielded ending] in Hcat, Hdone. rewrite (Hdone eq_refl) in Hcat.
    rewrite app_nil_r in Hcat. symmetry. exact Hcat. }
  assert (Hids : List.map slim_id listed
                 = List.map (fun i => build_jira_url client (key i)) results).
  { rewrite Hlisted, map_map. reflexivity. }
  split; [exact Hids|].
  intros u Hu. apply in_map_iff in Hu. destruct Hu as (d & <- & Hd).
  unfold loaded, load_from_state, jira_client in Hd.
  rewrite Hclient in Hd. cbn [fst] in Hd.
  destruct (emit_batches_prefix (batch_size self)
              (fetch_jira_issues_batch fuel client (_get_jql_query self)
                 _JIRA_FULL_PAGE_SIZE (comment_email_blacklist self)
                 (Some (labels_to_skip self)))) as (lost & Hcat & _).
  assert (Hin : In d (yielded
                        (fetch_jira_issues_batch fuel client
                           (_get_jql_query self) _JIRA_FULL_PAGE_SIZE
                           (comment_email_blacklist self)
                           (Some (labels_to_skip self))))).
  { rewrite Hcat. apply in_or_app. left. exact Hd. }
  unfold client in Hin.
  rewrite (fetch_served base _ results _JIRA_FULL_PAGE_SIZE _ _ fuel
             ltac:(unfold _JIRA_FULL_PAGE_SIZE; lia) Hfuel) in Hin.
  cbn [yielded] in Hin. fold client in Hin.
  destruct (transform client (comment_email_blacklist self)
              (Some (labels_to_skip self)) results) as [docs e] eqn:Ht.
  cbn [fst] in Hin.
  destruct (transform_In client _ _ _ _ _ _ Ht Hin) as (i & Hi & Hemit).
  apply process_issue_Emit_inv in Hemit. destruct Hemit as [_ ->].
  rewrite Hids. apply in_map_iff. exists i. split; [reflexivity | exact Hi].
Qed.

End ConnectorExtras.


(** Five records, four documents loaded and one stopped by an encoding
    error: the listing has the five identifiers, the load three of them. *)
Lemma slim_listing_covers_full_load_witness :
  List.length
    (List.concat
       (yielded (slim_batches
                   (fst (retrieve_all_slim_documents 1 None None
                           (Edge.connector 2 Edge.client))))))
  = 5%nat
  /\ incl
       (List.map id
          (List.concat
             (yielded (fst (load_from_state (H := Fixture.collaborators) 1
                              (Edge.connector 2 Edge.client))))))
       (List.map slim_id
          (List.concat
             (yielded (slim_batches
                         (fst (retrieve_all_slim_documents 1 None None
                                 (Edge.connector 2 Edge.client))))))).
Proof.
  split; [reflexivity|].
  pose proof (slim_listing_covers_full_load (H := Fixture.collaborators)
                Fixture.base_url Edge.records (Edge.connector 2 Edge.client)
                1 None None eq_refl eq_refl) as W.
  cbv zeta in W. exact (proj2 W).
Defined.

(** ** The API version switch *)

Section ApiVersion.
Context `{Collaborators}.

(** X18. The description is read as plain text when the environment
    variable [JIRA_API_VERSION] is unset, empty, or exactly [2], and a
    missing description then reads [None]; with any other value, [3] or a
    [2] with a space, it is flattened from the rich-text tree of the raw
    record. *)
Theorem api_version_selects_description (issue : Issue) :
  (env_JIRA_API_VERSION = None \/ env_JIRA_API_VERSION = Some []
   \/ env_JIRA_API_VERSION = Some (lit "2") ->
   JIRA_API_VERSION = lit "2"
   /\ issue_description issue = format_optional (description (fields issue)))
  /\ (forall v,
        env_JIRA_API_VERSION = Some v -> v <> [] -> v <> lit "2" ->
        JIRA_API_VERSION = v
        /\ issue_description issue
           = extract_text_from_adf (raw_description issue)).
Proof.
  unfold issue_description, JIRA_API_VERSION. split.
  - intros [-> | [-> | ->]]; split; reflexivity.
  - intros v -> Hne H2. destruct v as [| c v]; [congruence|].
    cbn [str_truthy]. split; [reflexivity|].
    destruct (str_eqb (c :: v) (lit "2")) eqn:Heq; [| reflexivity].
    apply str_eqb_eq in Heq. congruence.
Qed.

End ApiVersion.
